(** * KAMAYAN POS print server: the [/api/print] relay

    A shallow embedding of the handler [app.post('/api/print', ...)] of
    [src/server/index.js]: request validation, the conversion of the payload
    to a byte buffer, the socket event handlers with their resolve-once
    latch, and the mapping of the outcome to an HTTP response.

    Strings are [string], numbers are integers ([Z]), a JSON field whose
    key is missing is [Undefined].  The socket and the event loop are the
    environment: a run
    of the handler is given the list of socket events in the order in which
    they fire, and produces the HTTP response together with the log of the
    operations issued on the socket. *)

From Stdlib Require Import ZArith List Bool Ascii String Lia.
From Stdlib Require Import DecimalString.
Import ListNotations.
Local Open Scope string_scope.
Local Open Scope Z_scope.

(** ** Regular expressions

    The address pattern of the handler is a regular expression literal.
    [RegExp.prototype.test] with both anchors [^] and [$] (and no flag)
    decides whether the whole string belongs to the language of the
    pattern; it is modelled by derivatives. *)

Module Regex.

Inductive regex : Type :=
| Void : regex                                  (* matches nothing *)
| Eps : regex                                   (* the empty string *)
| Class : (ascii -> bool) -> regex              (* one character of a class *)
| Cat : regex -> regex -> regex
| Alt : regex -> regex -> regex.

(** [r{n}] *)
Fixpoint power (r : regex) (n : nat) : regex :=
  match n with
  | O => Eps
  | S n' => Cat r (power r n')
  end.

(** [r{0,n}] *)
Fixpoint upto (r : regex) (n : nat) : regex :=
  match n with
  | O => Eps
  | S n' => Alt Eps (Cat r (upto r n'))
  end.

(** [r{lo,hi}] *)
Definition rep (r : regex) (lo hi : nat) : regex :=
  Cat (power r lo) (upto r (hi - lo)).

Fixpoint nullable (r : regex) : bool :=
  match r with
  | Void => false
  | Eps => true
  | Class _ => false
  | Cat r1 r2 => nullable r1 && nullable r2
  | Alt r1 r2 => nullable r1 || nullable r2
  end.

Fixpoint deriv (c : ascii) (r : regex) : regex :=
  match r with
  | Void => Void
  | Eps => Void
  | Class p => if p c then Eps else Void
  | Cat r1 r2 =>
      if nullable r1
      then Alt (Cat (deriv c r1) r2) (deriv c r2)
      else Cat (deriv c r1) r2
  | Alt r1 r2 => Alt (deriv c r1) (deriv c r2)
  end.

(** [/^r$/.test(s)] *)
Fixpoint test (r : regex) (s : string) : bool :=
  match s with
  | EmptyString => nullable r
  | String c s' => test (deriv c r) s'
  end.

(** The language of a pattern. *)
Inductive Matches : regex -> string -> Prop :=
| MEps : Matches Eps ""
| MClass : forall (p : ascii -> bool) c, p c = true -> Matches (Class p) (String c "")
| MCat : forall r1 r2 s1 s2,
    Matches r1 s1 -> Matches r2 s2 -> Matches (Cat r1 r2) (s1 ++ s2)
| MAltL : forall r1 r2 s, Matches r1 s -> Matches (Alt r1 r2) s
| MAltR : forall r1 r2 s, Matches r2 s -> Matches (Alt r1 r2) s.

End Regex.

Import Regex.

(** [\d]: without the [u] flag, the ASCII digits. *)
Definition is_digit (c : ascii) : bool :=
  let n := nat_of_ascii c in (48 <=? n)%nat && (n <=? 57)%nat.

(** [\.] *)
Definition is_dot (c : ascii) : bool := Ascii.eqb c ".".

(** [const ipRegex = /^(\d{1,3}\.){3}\d{1,3}$/;] *)
Definition ipRegex : regex :=
  Cat (rep (Cat (rep (Class is_digit) 1 3) (Class is_dot)) 3 3)
      (rep (Class is_digit) 1 3).

(** ** Request bodies

    [const { ip, port, data } = req.body;] -- the three fields of the JSON
    body.  A field is [Undefined] when its key is missing.  The address is
    a JSON string, the port an integer, the payload any JSON value; the
    elements of a payload array are numbers (integers), booleans, [null]
    or objects, an object being given by its own keys (their values, like
    every JSON value, are not callable, and play no part in a conversion).
    Addresses and ports of another JSON type, fractional
    numbers, and array elements that are strings or arrays (whose
    conversion to a number goes through the parsing of numeric strings)
    are outside the model. *)

Inductive field (A : Type) : Type :=
| Undefined : field A
| Null : field A
| Value : A -> field A.
Arguments Undefined {A}.
Arguments Null {A}.
Arguments Value {A} _.

Inductive elem : Type :=
| ENum : Z -> elem
| EBool : bool -> elem
| ENull : elem
| EObj : list string -> elem.

Inductive payload : Type :=
| DStr : string -> payload
| DNum : Z -> payload
| DBool : bool -> payload
| DObj : payload
| DArr : list elem -> payload.

Record body : Type := Body {
  ip : field string;
  port : field Z;
  data : field payload
}.

(** ** Coercions of the language *)

(** [ToBoolean]: what [!x] and [x || y] look at. *)
Class ToBoolean (A : Type) : Type := truthy : A -> bool.

#[export] Instance truthy_string : ToBoolean string :=
  fun s => negb (String.eqb s "").
#[export] Instance truthy_Z : ToBoolean Z :=
  fun n => negb (n =? 0).
#[export] Instance truthy_payload : ToBoolean payload :=
  fun d => match d with
           | DStr s => truthy s
           | DNum n => truthy n
           | DBool b => b
           | DObj => true
           | DArr _ => true
           end.
#[export] Instance truthy_field (A : Type) `{ToBoolean A} : ToBoolean (field A) :=
  fun f => match f with
           | Undefined => false
           | Null => false
           | Value a => truthy a
           end.

(** [x || d] on a field with a default. *)
Definition js_or {A : Type} `{ToBoolean A} (x : field A) (d : A) : A :=
  match x with
  | Value a => if truthy a then a else d
  | _ => d
  end.

(** [Array.isArray(data)] *)
Definition isArray (d : field payload) : bool :=
  match d with
  | Value (DArr _) => true
  | _ => false
  end.

(** The elements of [data] once [Array.isArray(data)] holds. *)
Definition elements (d : field payload) : list elem :=
  match d with
  | Value (DArr l) => l
  | _ => []
  end.

(** [ToString], applied by [ipRegex.test(ip)] to its argument. *)
Definition ToString (f : field string) : string :=
  match f with
  | Undefined => "undefined"
  | Null => "null"
  | Value s => s
  end.

(** ** Results and responses *)

(** The object handed to [resolve] and then to [res.json]. *)
Record result : Type := Result {
  success : bool;
  error : option string;
  message : option string
}.

Record response : Type := Response {
  status : Z;
  json : result
}.

Definition failure (msg : string) : result :=
  {| success := false; error := Some msg; message := None |}.

(** ** Conversion of the payload to a buffer

    [Buffer.from(data)] either returns a buffer (bytes, each in 0..255) or
    throws an error with a message. *)

Inductive conv : Type :=
| Buffer : list Z -> conv
| Throws : string -> conv.

(** [ToNumber] of an array element: a number ([None] is [NaN]), or a
    [TypeError] that is thrown, given by its message.  An object is first
    converted to a primitive, by [valueOf] and then [toString].  The
    inherited [valueOf] returns the object itself, and an own "valueOf"
    key is not callable; either way [toString] is tried.  The inherited
    [toString] returns "[object Object]", which is not numeric; an own
    "toString" key is not callable, and then no primitive is found. *)
Definition ToNumber (e : elem) : option Z + string :=
  match e with
  | ENum n => inl (Some n)
  | EBool b => inl (Some (if b then 1 else 0))
  | ENull => inl (Some 0)
  | EObj keys =>
      if existsb (String.eqb "toString") keys
      then inr "Cannot convert object to primitive value"
      else inl None
  end.

(** [ToUint8]: [NaN] becomes 0, an integer is taken modulo 2^8. *)
Definition ToUint8 (n : option Z) : Z :=
  match n with
  | Some n => n mod 256
  | None => 0
  end.

(** [Buffer.from(array)] of Node: the elements are stored into a
    [Uint8Array] in order, each through [ToNumber] and [ToUint8]; the
    first element whose [ToNumber] throws makes the conversion throw. *)
Fixpoint Buffer_from (l : list elem) : conv :=
  match l with
  | [] => Buffer []
  | x :: l' =>
      match ToNumber x with
      | inr msg => Throws msg
      | inl n =>
          match Buffer_from l' with
          | Buffer bytes => Buffer (ToUint8 n :: bytes)
          | Throws msg => Throws msg
          end
      end
  end.

(** ** The socket, seen from the handler *)

(** Calls issued on the socket, in order. *)
Inductive sock_op : Type :=
| OpNew : sock_op                                (* new net.Socket() *)
| OpSetTimeout : Z -> sock_op                    (* socket.setTimeout(ms) *)
| OpConnect : Z -> string -> sock_op             (* socket.connect(port, host) *)
| OpWrite : list Z -> sock_op                    (* socket.write(buffer) *)
| OpEnd : sock_op                                (* socket.end() *)
| OpDestroy : sock_op.                           (* socket.destroy() *)

(** What [socket.write(buffer); socket.end();] does inside the ['connect']
    handler: both return, or one of them throws. *)
Inductive send : Type :=
| SendOk : send
| WriteThrows : string -> send
| EndThrows : string -> send.

(** Socket events; ['error'] carries [error.message]. *)
Inductive event : Type :=
| EvTimeout : event
| EvError : string -> event
| EvConnect : send -> event
| EvClose : event.

(** The environment of one attempt: whether [socket.connect] throws
    synchronously, and the events that fire afterwards, in order. *)
Record env : Type := Env {
  connectThrows : option string;
  events : list event
}.

(** The variables captured by the promise executor, the calls made to
    [resolve], and the calls issued on the socket. *)
Record attempt : Type := Attempt {
  connected : bool;
  printSuccess : bool;
  resolved : bool;
  resolutions : list result;
  ops : list sock_op
}.

Definition issue (st : attempt) (o : list sock_op) : attempt :=
  {| connected := connected st; printSuccess := printSuccess st;
     resolved := resolved st; resolutions := resolutions st;
     ops := ops st ++ o |}.

Definition set_connected (st : attempt) : attempt :=
  {| connected := true; printSuccess := printSuccess st;
     resolved := resolved st; resolutions := resolutions st;
     ops := ops st |}.

Definition set_printSuccess (st : attempt) : attempt :=
  {| connected := connected st; printSuccess := true;
     resolved := resolved st; resolutions := resolutions st;
     ops := ops st |}.

(** [const resolveOnce = (result) => { if (!resolved) { resolved = true; resolve(result); } };] *)
Definition resolveOnce (st : attempt) (r : result) : attempt :=
  if negb (resolved st)
  then {| connected := connected st; printSuccess := printSuccess st;
          resolved := true; resolutions := resolutions st ++ [r];
          ops := ops st |}
  else st.

(** [socket.on('timeout', ...)] *)
Definition on_timeout (st : attempt) : attempt :=
  resolveOnce (issue st [OpDestroy])
    (failure "Connection timeout - printer may be offline or unreachable").

(** [socket.on('error', ...)]: [error.message || 'Connection failed'] *)
Definition on_error (st : attempt) (msg : string) : attempt :=
  resolveOnce st (failure (if truthy msg then msg else "Connection failed")).

(** [socket.on('connect', ...)] *)
Definition on_connect (buffer : list Z) (st : attempt) (s : send) : attempt :=
  let st := set_connected st in
  match s with
  | SendOk =>
      set_printSuccess (issue st [OpWrite buffer; OpEnd])
  | WriteThrows m =>
      resolveOnce (issue st [OpWrite buffer; OpDestroy])
        (failure ("Failed to send data: " ++ m))
  | EndThrows m =>
      resolveOnce (issue st [OpWrite buffer; OpEnd; OpDestroy])
        (failure ("Failed to send data: " ++ m))
  end.

(** [socket.on('close', ...)] *)
Definition on_close (st : attempt) : attempt :=
  if connected st && printSuccess st then
    resolveOnce st
      {| success := true; error := None;
         message := Some "Print job sent successfully" |}
  else if negb (connected st) && negb (resolved st) then
    resolveOnce st (failure "Connection closed unexpectedly")
  else st.

Definition on_event (buffer : list Z) (st : attempt) (ev : event) : attempt :=
  match ev with
  | EvTimeout => on_timeout st
  | EvError m => on_error st m
  | EvConnect s => on_connect buffer st s
  | EvClose => on_close st
  end.

(** The body of the promise executor: the socket is created, its timeout
    set, the handlers registered, and [socket.connect(printerPort, ip)]
    called inside its [try]. *)
Definition open (host : string) (printerPort : Z) (throws : option string)
  : attempt :=
  let st := {| connected := false; printSuccess := false; resolved := false;
               resolutions := [];
               ops := [OpNew; OpSetTimeout 10000] |} in
  let st := issue st [OpConnect printerPort host] in
  match throws with
  | None => st
  | Some m => resolveOnce st (failure ("Failed to connect: " ++ m))
  end.

(** One relay attempt: the executor, then the events in the order in which
    they fire. *)
Definition relay (host : string) (printerPort : Z) (buffer : list Z) (e : env)
  : attempt :=
  fold_left (on_event buffer) (events e) (open host printerPort (connectThrows e)).

(** [.then((result) => { if (result.success) res.json(result); else res.status(500).json(result); })] *)
Definition respond (r : result) : response :=
  if success r then {| status := 200; json := r |}
  else {| status := 500; json := r |}.

(** The value the promise settles to: the argument of the first call to
    [resolve]. *)
Definition settled (st : attempt) : option result := hd_error (resolutions st).

(** ** The handler *)

Section Handler.

(** The conversion [Buffer.from], applied to the elements of the array. *)
Variable BufferFrom : list elem -> conv.

(** Lines 69-114: either a 400 response, or the address, the port and the
    buffer the relay is started with. *)
Definition validate (b : body) : response + (string * Z * list Z) :=
  if negb (truthy (ip b)) || negb (truthy (data b)) || negb (isArray (data b))
  then
    inl {| status := 400;
           json := {| success := false;
                      error := Some "Invalid request";
                      message := Some "IP address and data array are required" |} |}
  else if negb (test ipRegex (ToString (ip b))) then
    inl {| status := 400; json := failure "Invalid IP address format" |}
  else
    let printerPort := js_or (port b) 9100 in
    if (printerPort <? 1) || (printerPort >? 65535) then
      inl {| status := 400;
             json := failure "Invalid port number (must be 1-65535)" |}
    else
      match BufferFrom (elements (data b)) with
      | Buffer buffer =>
          if (Z.of_nat (List.length buffer) =? 0) then
            inl {| status := 400; json := failure "Print data is empty" |}
          else inr (ToString (ip b), printerPort, buffer)
      | Throws msg =>
          inl {| status := 400;
                 json := failure ("Invalid data format: " ++ msg) |}
      end.

(** [app.post('/api/print', async (req, res) => ...)]: the response sent,
    if any, and the calls issued on sockets. *)
Definition handler (b : body) (e : env) : option response * list sock_op :=
  match validate b with
  | inl resp => (Some resp, [])
  | inr (host, printerPort, buffer) =>
      let st := relay host printerPort buffer e in
      (option_map respond (settled st), ops st)
  end.

End Handler.

(** The handler as it runs on Node. *)
Definition print_handler : body -> env -> option response * list sock_op :=
  handler Buffer_from.

(** ** The address pattern in the words of the specification

    "Four dot-separated groups of 1-3 digits." *)

Definition decimal_digit (c : ascii) : Prop :=
  In c (list_ascii_of_string "0123456789").

Definition digit_group (g : string) : Prop :=
  (1 <= String.length g <= 3)%nat /\
  Forall decimal_digit (list_ascii_of_string g).

Definition dotted_quad (s : string) : Prop :=
  exists a b c d,
    digit_group a /\ digit_group b /\ digit_group c /\ digit_group d /\
    s = a ++ "." ++ b ++ "." ++ c ++ "." ++ d.

(** ** Requests in the words of the specification *)

(** A PrintRequest of the data model: a dotted-quad address [a], a port
    that is absent (then [p] is the default) or within 1..65535, and a
    non-empty sequence of unsigned 8-bit values. *)
Definition valid_request (b : body) (a : string) (p : Z) (bytes : list Z) : Prop :=
  ip b = Value a /\ dotted_quad a /\
  ((port b = Undefined /\ p = 9100) \/ (port b = Value p /\ 1 <= p <= 65535)) /\
  data b = Value (DArr (map ENum bytes)) /\
  bytes <> [] /\ Forall (fun n => 0 <= n <= 255) bytes.


(** An element that is an object with an own "toString" key. *)
Definition own_toString (e : elem) : bool :=
  match e with
  | EObj keys => existsb (String.eqb "toString") keys
  | _ => false
  end.

(** ** The latch

    What every state of an attempt satisfies: [resolve] has been called
    once if [resolved] is set and never otherwise, and a connected socket
    whose write was not issued has already resolved. *)
Definition latch_inv (st : attempt) : Prop :=
  List.length (resolutions st) = (if resolved st then 1%nat else 0%nat) /\
  (connected st = true -> printSuccess st = false -> resolved st = true).

(** The state of an attempt after the events [evs] have fired. *)
Definition after (host : string) (printerPort : Z) (buffer : list Z)
    (throws : option string) (evs : list event) : attempt :=
  relay host printerPort buffer (Env throws evs).

(** The events that end an attempt: ['timeout'], ['error'], ['close'], and
    a ['connect'] whose write throws. *)
Definition teardown (ev : event) : bool :=
  match ev with
  | EvConnect SendOk => false
  | _ => true
  end.

Definition print_success : result :=
  {| success := true; error := None;
     message := Some "Print job sent successfully" |}.

(** ** The calls an event causes

    What the handler of an event issues on the socket, whether or not the
    attempt is already resolved. *)
Definition issued (buffer : list Z) (ev : event) : list sock_op :=
  match ev with
  | EvTimeout => [OpDestroy]
  | EvError _ => []
  | EvConnect SendOk => [OpWrite buffer; OpEnd]
  | EvConnect (WriteThrows _) => [OpWrite buffer; OpDestroy]
  | EvConnect (EndThrows _) => [OpWrite buffer; OpEnd; OpDestroy]
  | EvClose => []
  end.

(** The part of the state the outcome depends on. *)
Definition flags (st : attempt) : bool * bool * bool * list result :=
  (connected st, printSuccess st, resolved st, resolutions st).

(** The calls that set a socket up. *)
Definition is_setup (o : sock_op) : bool :=
  match o with
  | OpNew | OpSetTimeout _ | OpConnect _ _ => true
  | _ => false
  end.

(** The events whose handler calls [socket.destroy()]. *)
Definition destroys (ev : event) : bool :=
  match ev with
  | EvTimeout | EvConnect (WriteThrows _) | EvConnect (EndThrows _) => true
  | _ => false
  end.

Definition is_connect (ev : event) : bool :=
  match ev with
  | EvConnect _ => true
  | _ => false
  end.

(** ** Dotted-decimal notation

    An IPv4 address written the usual way: four numbers in decimal,
    separated by dots. *)
Definition decimal (n : nat) : string :=
  NilEmpty.string_of_uint (Nat.to_uint n).

Definition ipv4_text (a b c d : nat) : string :=
  decimal a ++ "." ++ decimal b ++ "." ++ decimal c ++ "." ++ decimal d.

Definition is_comma (c : ascii) : bool := Ascii.eqb c ",".

(** ** Allowed origins

    [origin: process.env.ALLOWED_ORIGINS ? process.env.ALLOWED_ORIGINS.split(',') : '*'];
    an environment variable is a string or [undefined] ([None]). *)

(** [s.split(',')] *)
Fixpoint split_comma (s : string) : list string :=
  match s with
  | EmptyString => [""]
  | String c s' =>
      if is_comma c then "" :: split_comma s'
      else match split_comma s' with
           | [] => [String c ""]
           | x :: xs => String c x :: xs
           end
  end.

Inductive cors_origin : Type :=
| AnyOrigin : cors_origin                       (* '*' *)
| OriginList : list string -> cors_origin.

Definition allowed_origins (v : option string) : cors_origin :=
  match v with
  | Some s => if truthy s then OriginList (split_comma s) else AnyOrigin
  | None => AnyOrigin
  end.

(** ** Strings *)

Lemma append_nil_r (s : string) : s ++ "" = s.
Proof. induction s as [|c s IH]; simpl; [reflexivity | now rewrite IH]. Qed.

Lemma append_assoc (s1 s2 s3 : string) : (s1 ++ s2) ++ s3 = s1 ++ (s2 ++ s3).
Proof. induction s1 as [|c s1 IH]; simpl; [reflexivity | now rewrite IH]. Qed.

Lemma append_eq_nil (s1 s2 : string) : s1 ++ s2 = "" -> s1 = "" /\ s2 = "".
Proof. destruct s1; simpl; intros H; [now split | discriminate]. Qed.

Lemma append_eq_cons (s1 s2 s : string) (c : ascii) :
  s1 ++ s2 = String c s ->
  (s1 = "" /\ s2 = String c s) \/ (exists s1', s1 = String c s1' /\ s = s1' ++ s2).
Proof.
  destruct s1 as [|c1 s1]; simpl; intros H.
  - now left.
  - injection H as -> <-. right. now exists s1.
Qed.

(** ** The matcher decides the language of the pattern *)

Module RegexFacts.

Lemma Matches_Void s : ~ Matches Void s.
Proof. intros H; inversion H. Qed.

Lemma Matches_Eps s : Matches Eps s <-> s = "".
Proof. split; [intros H; now inversion H | intros ->; constructor]. Qed.

Lemma Matches_Class p s :
  Matches (Class p) s <-> exists c, p c = true /\ s = String c "".
Proof.
  split.
  - intros H; inversion H; subst. eauto.
  - intros (c & Hc & ->). now constructor.
Qed.

Lemma Matches_Cat r1 r2 s :
  Matches (Cat r1 r2) s <->
  exists s1 s2, s = s1 ++ s2 /\ Matches r1 s1 /\ Matches r2 s2.
Proof.
  split.
  - intros H; inversion H; subst. eauto.
  - intros (s1 & s2 & -> & H1 & H2). now constructor.
Qed.

Lemma Matches_Alt r1 r2 s :
  Matches (Alt r1 r2) s <-> Matches r1 s \/ Matches r2 s.
Proof.
  split.
  - intros H; inversion H; subst; auto.
  - intros [H|H]; [now apply MAltL | now apply MAltR].
Qed.

Lemma nullable_spec r : nullable r = true <-> Matches r "".
Proof.
  induction r as [| |p|r1 IH1 r2 IH2|r1 IH1 r2 IH2]; simpl.
  - split; [discriminate | intros H; inversion H].
  - split; [constructor | reflexivity].
  - split; [discriminate | intros H; inversion H].
  - rewrite andb_true_iff, IH1, IH2, Matches_Cat. split.
    + intros [H1 H2]. now exists "", "".
    + intros (s1 & s2 & E & H1 & H2).
      symmetry in E. apply append_eq_nil in E as [-> ->]. now split.
  - now rewrite orb_true_iff, IH1, IH2, Matches_Alt.
Qed.

Lemma deriv_spec r : forall c s, Matches (deriv c r) s <-> Matches r (String c s).
Proof.
  induction r as [| |p|r1 IH1 r2 IH2|r1 IH1 r2 IH2]; intros c s; simpl.
  - split; intros H; inversion H.
  - split; intros H; inversion H.
  - destruct (p c) eqn:Hp.
    + rewrite Matches_Eps, Matches_Class. split.
      * intros ->. now exists c.
      * intros (c' & _ & E). now injection E.
    + split; [intros H; inversion H |].
      rewrite Matches_Class. intros (c' & Hc' & E).
      injection E as <- _. congruence.
  - assert (step : Matches (Cat (deriv c r1) r2) s <->
                   exists s1', exists s2, s = s1' ++ s2 /\
                     Matches r1 (String c s1') /\ Matches r2 s2).
    { rewrite Matches_Cat. split.
      - intros (s1 & s2 & E & H1 & H2). exists s1, s2. now rewrite <- IH1.
      - intros (s1 & s2 & E & H1 & H2). exists s1, s2. now rewrite IH1. }
    assert (split_cat : Matches (Cat r1 r2) (String c s) <->
              (Matches r1 "" /\ Matches r2 (String c s)) \/
              (exists s1', exists s2, s = s1' ++ s2 /\
                     Matches r1 (String c s1') /\ Matches r2 s2)).
    { rewrite Matches_Cat. split.
      - intros (s1 & s2 & E & H1 & H2). symmetry in E.
        apply append_eq_cons in E as [[-> ->] | (s1' & -> & ->)].
        + now left.
        + right. now exists s1', s2.
      - intros [[H1 H2] | (s1' & s2 & -> & H1 & H2)].
        + now exists "", (String c s).
        + now exists (String c s1'), s2. }
    destruct (nullable r1) eqn:N.
    + rewrite Matches_Alt, step, IH2, split_cat.
      apply nullable_spec in N. tauto.
    + rewrite step, split_cat. split; [tauto |].
      intros [[H1 _] | H]; [| exact H].
      apply nullable_spec in H1. congruence.
  - now rewrite !Matches_Alt, IH1, IH2.
Qed.

Lemma test_spec r : forall s, test r s = true <-> Matches r s.
Proof.
  intros s; revert r.
  induction s as [|c s IH]; intros r; simpl.
  - apply nullable_spec.
  - now rewrite IH, deriv_spec.
Qed.

End RegexFacts.

(** ** The address pattern *)

Ltac invert_matches :=
  repeat match goal with
    | H : Matches (Cat _ _) _ |- _ =>
        apply RegexFacts.Matches_Cat in H as (? & ? & -> & ? & ?)
    | H : Matches (Alt _ _) _ |- _ =>
        apply RegexFacts.Matches_Alt in H as [?|?]
    | H : Matches Eps _ |- _ =>
        apply RegexFacts.Matches_Eps in H as ->
    | H : Matches (Class _) _ |- _ =>
        apply RegexFacts.Matches_Class in H as (? & ? & ->)
    end.

Lemma is_digit_spec (c : ascii) : is_digit c = true <-> decimal_digit c.
Proof.
  unfold decimal_digit.
  destruct c as [[] [] [] [] [] [] [] []]; vm_compute;
    (split;
     [ intros H; first [ discriminate H | intuition congruence | tauto ]
     | intros H; first [ reflexivity | intuition discriminate ] ]).
Qed.

Lemma group_spec (g : string) :
  Matches (rep (Class is_digit) 1 3) g <-> digit_group g.
Proof.
  unfold digit_group. split.
  - intros H. cbv [rep power upto Nat.sub] in H.
    invert_matches; cbn; (split; [lia |]);
      repeat (apply Forall_cons; [now apply is_digit_spec |]);
      apply Forall_nil.
  - intros [Hlen Hall].
    destruct g as [|c1 [|c2 [|c3 [|c4 g]]]]; cbn in Hlen; try lia;
      cbn in Hall;
      repeat match goal with
        | H : Forall _ (_ :: _) |- _ => inversion H; subst; clear H
        end;
      repeat match goal with
        | H : decimal_digit _ |- _ => apply is_digit_spec in H
        end;
      cbv [rep power upto Nat.sub].
    + change (String c1 "") with ((String c1 "" ++ "") ++ "").
      repeat (constructor; try assumption).
    + change (String c1 (String c2 ""))
        with ((String c1 "" ++ "") ++ (String c2 "" ++ "")).
      constructor; [repeat (constructor; try assumption) |].
      apply MAltR. constructor; [now constructor |].
      apply MAltL. constructor.
    + change (String c1 (String c2 (String c3 "")))
        with ((String c1 "" ++ "") ++ (String c2 "" ++ (String c3 "" ++ ""))).
      constructor; [repeat (constructor; try assumption) |].
      apply MAltR. constructor; [now constructor |].
      apply MAltR. constructor; [now constructor |]. constructor.
Qed.

Lemma ipRegex_language (s : string) : Matches ipRegex s <-> dotted_quad s.
Proof.
  pose proof group_spec as HG. revert HG.
  unfold ipRegex, dotted_quad.
  generalize (rep (Class is_digit) 1 3) as G. intros G HG.
  cbv [rep power upto Nat.sub]. split.
  - intros H. invert_matches.
    match goal with
    | Ha : Matches G ?a, Hb : Matches G ?b, Hc : Matches G ?c, Hd : Matches G ?d
      |- context [(((?a ++ _) ++ (?b ++ _) ++ (?c ++ _) ++ _) ++ _) ++ ?d] =>
        exists a, b, c, d; apply HG in Ha, Hb, Hc, Hd
    end.
    repeat (split; [assumption |]).
    repeat match goal with
      | H : is_dot ?x = true |- _ =>
          apply Ascii.eqb_eq in H; subst x
      end.
    now rewrite !append_nil_r, !append_assoc.
  - intros (a & b & c & d & Ha & Hb & Hc & Hd & ->).
    apply HG in Ha, Hb, Hc, Hd.
    replace (a ++ "." ++ b ++ "." ++ c ++ "." ++ d)
      with ((((a ++ ".") ++ (b ++ ".") ++ (c ++ ".") ++ "") ++ "") ++ d)
      by now rewrite !append_nil_r, !append_assoc.
    repeat (constructor; try assumption).
Qed.

Lemma ipRegex_test_spec (s : string) : test ipRegex s = true <-> dotted_quad s.
Proof. now rewrite RegexFacts.test_spec, ipRegex_language. Qed.

(** ** The attempt: latch and events *)

Section Attempt.

Variable buffer : list Z.

Ltac attempt_cases st :=
  destruct st as [[] [] [] ? ?];
  cbv [latch_inv on_event on_timeout on_error on_connect on_close
       resolveOnce issue set_connected set_printSuccess
       connected printSuccess resolved resolutions ops negb andb] in *.

Lemma on_event_inv st ev :
  latch_inv st -> latch_inv (on_event buffer st ev).
Proof.
  intros [Hl Hc].
  destruct ev as [|m|[|m|m]|]; attempt_cases st;
    rewrite ?length_app, ?Hl; cbn [List.length Nat.add];
    (split; [first [assumption | reflexivity | lia] | auto]).
Qed.

Lemma on_event_resolved st ev :
  resolved st = true ->
  resolved (on_event buffer st ev) = true /\
  resolutions (on_event buffer st ev) = resolutions st.
Proof.
  intros H.
  destruct ev as [|m|[|m|m]|]; attempt_cases st;
    first [discriminate H | now split].
Qed.

Lemma on_event_ops st ev :
  exists o, ops (on_event buffer st ev) = (ops st ++ o)%list.
Proof.
  destruct ev as [|m|[|m|m]|]; attempt_cases st;
    first [ now eexists | exists []; now rewrite app_nil_r ].
Qed.

(** An ['error'], ['close'] or ['timeout'] event leaves the attempt
    resolved. *)
Lemma teardown_resolves st ev :
  latch_inv st -> ev <> EvConnect SendOk ->
  resolved (on_event buffer st ev) = true.
Proof.
  intros [Hl Hc] Hev.
  destruct ev as [|m|[|m|m]|]; try congruence; attempt_cases st;
    first [reflexivity | apply Hc; reflexivity].
Qed.

Lemma fold_inv evs : forall st,
  latch_inv st -> latch_inv (fold_left (on_event buffer) evs st).
Proof.
  induction evs as [|ev evs IH]; intros st H; cbn; [assumption |].
  now apply IH, on_event_inv.
Qed.

Lemma fold_resolved evs : forall st,
  resolved st = true ->
  resolved (fold_left (on_event buffer) evs st) = true /\
  resolutions (fold_left (on_event buffer) evs st) = resolutions st.
Proof.
  induction evs as [|ev evs IH]; intros st H; cbn; [now split |].
  destruct (on_event_resolved st ev H) as [Hr Hs].
  destruct (IH _ Hr) as [Hr' Hs']. split; congruence.
Qed.

Lemma fold_ops evs : forall st,
  exists o, ops (fold_left (on_event buffer) evs st) = (ops st ++ o)%list.
Proof.
  induction evs as [|ev evs IH]; intros st; cbn.
  - exists []. now rewrite app_nil_r.
  - destruct (IH (on_event buffer st ev)) as [o2 E2].
    destruct (on_event_ops st ev) as [o1 E1].
    exists (o1 ++ o2)%list. now rewrite E2, E1, app_assoc.
Qed.

Lemma open_inv host printerPort throws :
  latch_inv (open host printerPort throws).
Proof. destruct throws; cbv; auto. Qed.

Lemma open_ops host printerPort throws :
  ops (open host printerPort throws)
  = [OpNew; OpSetTimeout 10000; OpConnect printerPort host].
Proof. now destruct throws. Qed.

Lemma after_inv host printerPort throws evs :
  latch_inv (after host printerPort buffer throws evs).
Proof. apply fold_inv, open_inv. Qed.

Lemma after_app host printerPort throws evs1 evs2 :
  after host printerPort buffer throws (evs1 ++ evs2)%list
  = fold_left (on_event buffer) evs2 (after host printerPort buffer throws evs1).
Proof. unfold after, relay. cbn. apply fold_left_app. Qed.

Lemma after_ops host printerPort throws evs :
  exists o,
    ops (after host printerPort buffer throws evs)
    = OpNew :: OpSetTimeout 10000 :: OpConnect printerPort host :: o.
Proof.
  unfold after, relay. cbn.
  destruct (fold_ops evs (open host printerPort throws)) as [o E].
  exists o. now rewrite E, open_ops.
Qed.

Lemma inv_resolutions st :
  latch_inv st ->
  (resolved st = false /\ resolutions st = []) \/
  (resolved st = true /\ exists r, resolutions st = [r]).
Proof.
  intros [Hl _]. destruct (resolved st); [right | left]; split; trivial.
  - destruct (resolutions st) as [|r [|r' rs]]; cbn in Hl; try lia.
    now exists r.
  - now apply length_zero_iff_nil.
Qed.

End Attempt.

(** ** Validation *)

Section Validation.

Variable BufferFrom : list elem -> conv.

Lemma validate_inl b resp :
  validate BufferFrom b = inl resp ->
  status resp = 400 /\ success (json resp) = false.
Proof.
  unfold validate.
  repeat match goal with
    | |- context [if ?c then _ else _] => destruct c
    | |- context [match BufferFrom ?l with _ => _ end] =>
        destruct (BufferFrom l)
    end;
    intros H; inversion H; subst; now split.
Qed.

Lemma validate_inr b host p buf :
  validate BufferFrom b = inr (host, p, buf) <->
  truthy (ip b) = true /\ truthy (data b) = true /\ isArray (data b) = true /\
  test ipRegex (ToString (ip b)) = true /\
  p = js_or (port b) 9100 /\ 1 <= p <= 65535 /\
  BufferFrom (elements (data b)) = Buffer buf /\ buf <> [] /\
  host = ToString (ip b).
Proof.
  unfold validate.
  destruct (truthy (ip b)), (truthy (data b)), (isArray (data b));
    cbn [negb orb]; try (split; [discriminate | intuition discriminate]).
  destruct (test ipRegex (ToString (ip b)));
    cbn [negb]; try (split; [discriminate | intuition discriminate]).
  destruct (Z.ltb_spec (js_or (port b) 9100) 1) as [Hlo|Hlo];
    cbn [orb]; [split; [discriminate | intros; lia] |].
  destruct (Z.gtb_spec (js_or (port b) 9100) 65535) as [Hhi|Hhi];
    [split; [discriminate | intros; lia] |].
  destruct (BufferFrom (elements (data b))) as [bytes|msg];
    [| split; [discriminate | intuition discriminate]].
  destruct bytes as [|x bytes].
  - cbn. split; [discriminate | intros H; decompose [and] H].
    match goal with E : Buffer _ = Buffer _ |- _ => inversion E; subst end.
    congruence.
  - replace (Z.of_nat (List.length (x :: bytes)) =? 0) with false
      by (symmetry; apply Z.eqb_neq; cbn [List.length]; lia).
    split.
    + intros H; inversion H; subst. repeat split; try lia; discriminate.
    + intros H; decompose [and] H.
      match goal with E : Buffer _ = Buffer _ |- _ => inversion E; subst end.
      reflexivity.
Qed.


Lemma handler_inl b resp e :
  validate BufferFrom b = inl resp ->
  handler BufferFrom b e = (Some resp, []).
Proof. unfold handler. now intros ->. Qed.

Lemma handler_inr b host p buf e :
  validate BufferFrom b = inr (host, p, buf) ->
  handler BufferFrom b e
  = (option_map respond (settled (relay host p buf e)),
     ops (relay host p buf e)).
Proof. unfold handler. now intros ->. Qed.

End Validation.

Lemma byte_mod (n : Z) : 0 <= n <= 255 -> n mod 256 = n.
Proof. intros H. apply Z.mod_small. lia. Qed.

Lemma Buffer_from_nums (ns : list Z) :
  Buffer_from (map ENum ns) = Buffer (map (fun n => n mod 256) ns).
Proof.
  induction ns as [|n ns IH]; cbn [map Buffer_from ToNumber ToUint8];
    [reflexivity | now rewrite IH].
Qed.

Lemma Buffer_from_bytes (bytes : list Z) :
  Forall (fun n => 0 <= n <= 255) bytes ->
  Buffer_from (map ENum bytes) = Buffer bytes.
Proof.
  intros H. rewrite Buffer_from_nums. f_equal.
  induction H as [|n l Hn _ IH]; cbn [map]; [reflexivity |].
  f_equal; [now apply byte_mod | exact IH].
Qed.

Lemma ToUint8_range (n : option Z) : 0 <= ToUint8 n <= 255.
Proof.
  destruct n as [n|]; cbn; [| lia].
  pose proof (Z.mod_pos_bound n 256). lia.
Qed.

(** A conversion that returns gives one byte per element, within 0..255. *)
Lemma Buffer_from_returns (l : list elem) : forall bytes,
  Buffer_from l = Buffer bytes ->
  List.length bytes = List.length l /\
  Forall (fun x => 0 <= x <= 255) bytes.
Proof.
  induction l as [|x l IH]; intros bytes H; cbn [Buffer_from] in H.
  - injection H as <-. now split.
  - destruct (ToNumber x) as [n|msg]; [| discriminate H].
    destruct (Buffer_from l) as [rest|msg]; [| discriminate H].
    injection H as <-. destruct (IH rest eq_refl) as [Hl Hr].
    split; [cbn; now rewrite Hl |].
    constructor; [apply ToUint8_range | exact Hr].
Qed.

(** The conversion throws exactly when an element is an object with an own
    "toString" key. *)
Lemma Buffer_from_throws (l : list elem) :
  (exists msg, Buffer_from l = Throws msg) <-> existsb own_toString l = true.
Proof.
  induction l as [|x l IH]; cbn [Buffer_from existsb].
  - split; [intros [msg H]; discriminate H | discriminate].
  - destruct x as [n|b| |keys]; cbn [ToNumber own_toString orb];
      try (rewrite <- IH; destruct (Buffer_from l) as [rest|m];
           split; intros [msg H]; try discriminate H; now exists m).
    destruct (existsb (String.eqb "toString") keys); cbn [orb].
    + split; [reflexivity | intros _; now eexists].
    + rewrite <- IH. destruct (Buffer_from l) as [rest|m];
        split; intros [msg H]; try discriminate H; now exists m.
Qed.

Lemma truthy_dotted_quad (a : string) : dotted_quad a -> truthy a = true.
Proof.
  intros (x & y & z & w & [[Hx _] _] & _ & _ & _ & ->).
  destruct x; cbn in Hx; [lia | reflexivity].
Qed.

(** A request of the data model passes validation, and the buffer is the
    payload itself. *)
Lemma validate_valid b a p bytes :
  valid_request b a p bytes ->
  validate Buffer_from b = inr (a, p, bytes).
Proof.
  intros (Hip & Hq & Hport & Hdata & Hne & Hall).
  apply validate_inr. rewrite Hip, Hdata. cbn.
  repeat split; try assumption; try reflexivity.
  - now apply truthy_dotted_quad.
  - now apply ipRegex_test_spec.
  - destruct Hport as [[-> ->] | [-> Hr]]; cbn; [reflexivity |].
    unfold truthy, truthy_Z.
    destruct (Z.eqb_spec p 0); [lia | reflexivity].
  - destruct Hport as [[_ ->] | [_ Hr]]; lia.
  - destruct Hport as [[_ ->] | [_ Hr]]; lia.
  - now apply Buffer_from_bytes.
Qed.

(** ** Runs of the relay *)

Lemma isArray_truthy (d : field payload) : isArray d = true -> truthy d = true.
Proof. destruct d as [| |[]]; cbn; congruence. Qed.

(** After a connection and a write that both succeed, the buffer has been
    written and the output ended. *)
Lemma relay_connect_ops host p buf post :
  exists o,
    ops (relay host p buf (Env None (EvConnect SendOk :: post)))
    = OpNew :: OpSetTimeout 10000 :: OpConnect p host
        :: OpWrite buf :: OpEnd :: o.
Proof.
  unfold relay. cbn [events connectThrows fold_left].
  destruct (fold_ops buf post
              (on_event buf (open host p None) (EvConnect SendOk))) as [o E].
  exists o. now rewrite E.
Qed.

Lemma relay_connect_close host p buf post :
  resolutions (relay host p buf (Env None (EvConnect SendOk :: EvClose :: post)))
  = [print_success].
Proof.
  unfold relay. cbn [events connectThrows fold_left].
  now apply fold_resolved.
Qed.

(** ** The relay resolves once *)

(** C1.  Whatever the order in which the socket events fire, an attempt
    calls [resolve] at most once; as soon as an error, a close or a
    timeout has fired (anywhere in the sequence, before or after any other
    event) it has called it exactly once, as it has when [socket.connect]
    throws; and once the attempt is resolved, the events that follow do
    not change the outcome. *)
Theorem relay_resolves_exactly_once
    (host : string) (printerPort : Z) (buffer : list Z)
    (throws : option string) (pre post : list event) :
  (List.length (resolutions (after host printerPort buffer throws pre)) <= 1)%nat /\
  (forall ev, teardown ev = true ->
     exists r,
       resolutions (after host printerPort buffer throws (pre ++ ev :: post))
       = [r]) /\
  (forall m, throws = Some m ->
     resolutions (after host printerPort buffer throws pre)
     = [failure ("Failed to connect: " ++ m)]) /\
  (resolved (after host printerPort buffer throws pre) = true ->
     resolutions (after host printerPort buffer throws (pre ++ post))
     = resolutions (after host printerPort buffer throws pre)).
Proof.
  pose proof (after_inv buffer host printerPort throws pre) as Inv.
  split; [| split; [| split]].
  - destruct Inv as [Hl _]. rewrite Hl. destruct (resolved _); lia.
  - intros ev Hev.
    rewrite after_app. cbn [fold_left].
    assert (Hr : resolved (on_event buffer
                  (after host printerPort buffer throws pre) ev) = true).
    { apply teardown_resolves; [assumption |].
      intros ->. discriminate Hev. }
    destruct (fold_resolved buffer post _ Hr) as [Hr' Hs].
    rewrite Hs.
    destruct (inv_resolutions _ (on_event_inv buffer _ ev Inv))
      as [[Hf _] | [_ Hex]]; [congruence | exact Hex].
  - intros m ->. unfold after, relay. cbn [events connectThrows].
    now apply fold_resolved.
  - intros Hr. rewrite after_app. now apply fold_resolved.
Qed.

Lemma relay_resolves_exactly_once_witness :
  exists r,
    resolutions (after "10.0.0.5" 9100 [27; 64] None
                   ([EvError "ECONNREFUSED"] ++ EvClose :: [EvTimeout]))
    = [r].
Proof.
  apply (proj1 (proj2 (relay_resolves_exactly_once
                         "10.0.0.5" 9100 [27; 64] None
                         [EvError "ECONNREFUSED"] [EvTimeout]))).
  reflexivity.
Defined.

(** The three orders the specification names. *)
Example error_then_close :
  resolutions (after "10.0.0.5" 9100 [27; 64] None
                 [EvError "ECONNREFUSED"; EvClose])
  = [failure "ECONNREFUSED"].
Proof. reflexivity. Qed.

Example close_then_error :
  resolutions (after "10.0.0.5" 9100 [27; 64] None
                 [EvClose; EvError "ECONNRESET"])
  = [failure "Connection closed unexpectedly"].
Proof. reflexivity. Qed.

Example timeout_then_close :
  resolutions (after "10.0.0.5" 9100 [27; 64] None [EvTimeout; EvClose])
  = [failure "Connection timeout - printer may be offline or unreachable"].
Proof. reflexivity. Qed.

(** C4.  When the socket closes in an attempt that has not reached the
    connected-and-written state and has not resolved yet, the attempt
    resolves to the failure "Connection closed unexpectedly". *)
Theorem close_before_write_fails
    (host : string) (printerPort : Z) (buffer : list Z)
    (throws : option string) (pre : list event) :
  connected (after host printerPort buffer throws pre)
    && printSuccess (after host printerPort buffer throws pre) = false ->
  resolved (after host printerPort buffer throws pre) = false ->
  resolutions (after host printerPort buffer throws (pre ++ [EvClose]))
  = [failure "Connection closed unexpectedly"].
Proof.
  intros Hcw Hres.
  pose proof (after_inv buffer host printerPort throws pre) as Inv.
  rewrite after_app. cbn [fold_left on_event].
  destruct (inv_resolutions _ Inv) as [[_ Hnil] | [Ht _]]; [| congruence].
  destruct Inv as [_ Hc].
  destruct (after host printerPort buffer throws pre) as [c w r rs o].
  cbn in *. subst r rs.
  destruct c, w; cbn in *; try discriminate; try reflexivity.
  specialize (Hc eq_refl eq_refl). discriminate.
Qed.

Lemma close_before_write_fails_witness :
  resolutions (after "192.168.1.100" 9100 [27; 64] None ([] ++ [EvClose]))
  = [failure "Connection closed unexpectedly"].
Proof.
  apply (close_before_write_fails "192.168.1.100" 9100 [27; 64] None []);
    reflexivity.
Defined.

(** C5.  The socket is given a timeout of 10,000 ms; when the timeout
    fires in an attempt that has not resolved yet, the socket is destroyed
    and the attempt resolves to the failure
    "Connection timeout - printer may be offline or unreachable". *)
Theorem timeout_destroys_and_fails
    (host : string) (printerPort : Z) (buffer : list Z)
    (throws : option string) (pre : list event) :
  resolved (after host printerPort buffer throws pre) = false ->
  In (OpSetTimeout 10000) (ops (after host printerPort buffer throws pre)) /\
  ops (after host printerPort buffer throws (pre ++ [EvTimeout]))
  = (ops (after host printerPort buffer throws pre) ++ [OpDestroy])%list /\
  resolutions (after host printerPort buffer throws (pre ++ [EvTimeout]))
  = [failure "Connection timeout - printer may be offline or unreachable"].
Proof.
  intros Hres.
  pose proof (after_inv buffer host printerPort throws pre) as Inv.
  destruct (after_ops buffer host printerPort throws pre) as [o Hops].
  split; [rewrite Hops; cbn; tauto |].
  rewrite after_app. cbn [fold_left on_event].
  destruct (inv_resolutions _ Inv) as [[_ Hnil] | [Ht _]]; [| congruence].
  destruct (after host printerPort buffer throws pre) as [c w r rs o'].
  cbn in *. subst r rs. now split.
Qed.

Lemma timeout_destroys_and_fails_witness :
  In (OpSetTimeout 10000)
     (ops (after "192.168.1.100" 9100 [27; 64] None [EvConnect SendOk])) /\
  ops (after "192.168.1.100" 9100 [27; 64] None
         ([EvConnect SendOk] ++ [EvTimeout]))
  = (ops (after "192.168.1.100" 9100 [27; 64] None [EvConnect SendOk])
       ++ [OpDestroy])%list /\
  resolutions (after "192.168.1.100" 9100 [27; 64] None
                 ([EvConnect SendOk] ++ [EvTimeout]))
  = [failure "Connection timeout - printer may be offline or unreachable"].
Proof.
  apply (timeout_destroys_and_fails
           "192.168.1.100" 9100 [27; 64] None [EvConnect SendOk]).
  reflexivity.
Defined.

(** C6.  For a valid request (dotted-quad address, port in range or
    absent, non-empty byte payload), when the connection succeeds, the
    buffer is written and the socket then closes, the attempt resolves to
    the success "Print job sent successfully" and the response is 200
    with that result; the buffer written is the payload. *)
Theorem print_job_succeeds
    (b : body) (a : string) (p : Z) (bytes : list Z) (post : list event) :
  valid_request b a p bytes ->
  resolutions (relay a p bytes (Env None (EvConnect SendOk :: EvClose :: post)))
  = [print_success] /\
  fst (print_handler b (Env None (EvConnect SendOk :: EvClose :: post)))
  = Some {| status := 200;
            json := {| success := true; error := None;
                       message := Some "Print job sent successfully" |} |} /\
  exists o,
    snd (print_handler b (Env None (EvConnect SendOk :: EvClose :: post)))
    = OpNew :: OpSetTimeout 10000 :: OpConnect p a
        :: OpWrite bytes :: OpEnd :: o.
Proof.
  intros Hv. apply validate_valid in Hv.
  unfold print_handler.
  rewrite (handler_inr _ _ _ _ _ _ Hv). cbn [fst snd].
  unfold settled. rewrite relay_connect_close.
  repeat split.
  apply relay_connect_ops.
Qed.

Lemma print_job_succeeds_witness :
  let b := Body (Value "192.168.1.100") (Value 9100)
                (Value (DArr (map ENum [27; 64; 72; 101; 108; 108; 111; 10]))) in
  fst (print_handler b (Env None [EvConnect SendOk; EvClose]))
  = Some (Response 200 (Result true None (Some "Print job sent successfully"))).
Proof.
  intros b.
  refine (proj1 (proj2 (print_job_succeeds b "192.168.1.100" 9100
                          [27; 64; 72; 101; 108; 108; 111; 10] [] _))).
  unfold valid_request, b. cbn [ip port data].
  split; [reflexivity |].
  split; [apply ipRegex_test_spec; reflexivity |].
  split; [right; split; [reflexivity | lia] |].
  split; [reflexivity |].
  split; [discriminate |].
  repeat (apply Forall_cons; [lia |]). apply Forall_nil.
Defined.

(** ** Validation comes first *)

Lemma truthy_nonempty (s : string) : s <> "" -> truthy s = true.
Proof.
  intros H. unfold truthy, truthy_string.
  apply negb_true_iff. now apply String.eqb_neq.
Qed.

Lemma test_not_quad (s : string) : ~ dotted_quad s -> test ipRegex s = false.
Proof.
  intros H. apply not_true_is_false. intros T.
  now apply H, ipRegex_test_spec.
Qed.

(** What the handler does once the presence and address checks are
    passed. *)
Lemma validate_past_address BufferFrom (b : body) :
  truthy (ip b) = true -> isArray (data b) = true ->
  dotted_quad (ToString (ip b)) ->
  validate BufferFrom b =
    if (js_or (port b) 9100 <? 1) || (js_or (port b) 9100 >? 65535) then
      inl {| status := 400;
             json := failure "Invalid port number (must be 1-65535)" |}
    else
      match BufferFrom (elements (data b)) with
      | Buffer buffer =>
          if (Z.of_nat (List.length buffer) =? 0) then
            inl {| status := 400; json := failure "Print data is empty" |}
          else inr (ToString (ip b), js_or (port b) 9100, buffer)
      | Throws msg =>
          inl {| status := 400;
                 json := failure ("Invalid data format: " ++ msg) |}
      end.
Proof.
  intros Hip Harr Hq. unfold validate.
  rewrite Hip, Harr, (isArray_truthy _ Harr).
  apply ipRegex_test_spec in Hq. now rewrite Hq.
Qed.



Example empty_payload :
  print_handler (Body (Value "192.168.1.100") (Value 9100) (Value (DArr [])))
                (Env None [EvConnect SendOk; EvClose])
  = (Some (Response 400 (failure "Print data is empty")), []).
Proof. reflexivity. Qed.

(** ** The address *)

(** C7, as stated, fails at the empty address: it does not match the
    pattern, yet the error of the response is "Invalid request", the
    empty string being taken for a missing address. *)
Lemma empty_address_counterexample :
  test ipRegex "" = false /\
  fst (print_handler
         (Body (Value "") (Value 9100) (Value (DArr [ENum 27; ENum 64])))
         (Env None []))
  = Some (Response 400
            (Result false (Some "Invalid request")
                    (Some "IP address and data array are required"))) /\
  fst (print_handler
         (Body (Value "") (Value 9100) (Value (DArr [ENum 27; ENum 64])))
         (Env None []))
  <> Some (Response 400 (failure "Invalid IP address format")).
Proof. repeat split. discriminate. Qed.

(** C7 (amended).  The pattern accepts a string if and only if it is made
    of four dot-separated groups of 1-3 digits, with no range check:
    "999.999.999.999" is accepted and the handler goes on to connect to
    it; a non-empty address that does not match, in a request whose
    payload is an array, is rejected with a 400 response whose error is
    "Invalid IP address format" and no call on a socket. *)
Theorem address_validator_permissive :
  (forall s, test ipRegex s = true <-> dotted_quad s) /\
  test ipRegex "999.999.999.999" = true /\
  (forall b p bytes e,
     valid_request b "999.999.999.999" p bytes ->
     exists o,
       snd (print_handler b e)
       = OpNew :: OpSetTimeout 10000 :: OpConnect p "999.999.999.999" :: o) /\
  (forall BufferFrom b s e,
     ip b = Value s -> s <> "" -> isArray (data b) = true ->
     ~ dotted_quad s ->
     handler BufferFrom b e
     = (Some (Response 400 (failure "Invalid IP address format")), [])).
Proof.
  split; [exact ipRegex_test_spec |].
  split; [reflexivity |].
  split.
  - intros b p bytes e Hv. apply validate_valid in Hv.
    unfold print_handler. rewrite (handler_inr _ _ _ _ _ _ Hv). cbn [snd].
    destruct e as [throws evs].
    apply (after_ops bytes "999.999.999.999" p throws evs).
  - intros BufferFrom b s e Hip Hs Harr Hq.
    apply handler_inl. unfold validate.
    rewrite Hip, Harr, (isArray_truthy _ Harr). cbn [truthy truthy_field ToString].
    rewrite (truthy_nonempty s Hs), (test_not_quad s Hq). reflexivity.
Qed.

Lemma address_validator_permissive_witness :
  handler Buffer_from
    (Body (Value "192.168.1") (Value 9100) (Value (DArr [ENum 27; ENum 64])))
    (Env None [EvConnect SendOk; EvClose])
  = (Some (Response 400 (failure "Invalid IP address format")), []).
Proof.
  apply (proj2 (proj2 (proj2 address_validator_permissive))
           Buffer_from _ "192.168.1").
  - reflexivity.
  - discriminate.
  - reflexivity.
  - intros H. apply ipRegex_test_spec in H. discriminate H.
Defined.

(** ** The port *)

Lemma js_or_supplied (p d : Z) : p <> 0 -> js_or (Value p) d = p.
Proof.
  intros H. unfold js_or, truthy, truthy_Z.
  destruct (Z.eqb_spec p 0); [contradiction | reflexivity].
Qed.

Lemma relay_open_ops host p buf e :
  exists o,
    ops (relay host p buf e)
    = OpNew :: OpSetTimeout 10000 :: OpConnect p host :: o.
Proof. destruct e as [throws evs]. apply (after_ops buf host p throws evs). Qed.

(** C2, as stated, fails at the supplied port 0: it is below 1, yet the
    request is not rejected; the relay connects to port 9100 and the job
    is printed. *)
Lemma port_zero_counterexample :
  print_handler
    (Body (Value "192.168.1.100") (Value 0) (Value (DArr [ENum 27; ENum 64])))
    (Env None [EvConnect SendOk; EvClose])
  = (Some (Response 200 print_success),
     [OpNew; OpSetTimeout 10000; OpConnect 9100 "192.168.1.100";
      OpWrite [27; 64]; OpEnd]) /\
  fst (print_handler
         (Body (Value "192.168.1.100") (Value 0)
               (Value (DArr [ENum 27; ENum 64])))
         (Env None [EvConnect SendOk; EvClose]))
  <> Some (Response 400 (failure "Invalid port number (must be 1-65535)")).
Proof. split; [reflexivity | discriminate]. Qed.

(** C2 (amended).  For a request that passes the presence and address
    checks and supplies a port p other than 0 with p < 1 or p > 65535, the
    handler answers 400 with the error
    "Invalid port number (must be 1-65535)" and issues no call on a
    socket.  A port that is absent, null or 0 is replaced by 9100 and is
    never the cause of that error. *)
Theorem port_out_of_range_rejected :
  (forall (BufferFrom : list elem -> conv) (b : body) (p : Z) (e : env),
     truthy (ip b) = true -> isArray (data b) = true ->
     dotted_quad (ToString (ip b)) ->
     port b = Value p -> p <> 0 -> p < 1 \/ p > 65535 ->
     handler BufferFrom b e
     = (Some (Response 400 (failure "Invalid port number (must be 1-65535)")),
        [])) /\
  (forall (BufferFrom : list elem -> conv) (b : body),
     port b = Undefined \/ port b = Null \/ port b = Value 0 ->
     js_or (port b) 9100 = 9100 /\
     validate BufferFrom b
     <> inl (Response 400 (failure "Invalid port number (must be 1-65535)"))).
Proof.
  split.
  - intros BufferFrom b p e Hip Harr Hq Hp Hnz Hr.
    apply handler_inl. rewrite validate_past_address by assumption.
    rewrite Hp, (js_or_supplied p 9100 Hnz).
    replace ((p <? 1) || (p >? 65535)) with true; [reflexivity |].
    symmetry. apply orb_true_iff.
    destruct Hr as [Hr|Hr]; [left; now apply Z.ltb_lt | right].
    rewrite Z.gtb_ltb. apply Z.ltb_lt. lia.
  - intros BufferFrom b Hp.
    assert (E : js_or (port b) 9100 = 9100)
      by (destruct Hp as [-> | [-> | ->]]; reflexivity).
    split; [exact E |].
    unfold validate. rewrite E.
    change ((9100 <? 1) || (9100 >? 65535)) with false.
    repeat match goal with
      | |- context [if ?c then _ else _] => destruct c
      | |- context [match BufferFrom ?l with _ => _ end] =>
          destruct (BufferFrom l)
      end; unfold failure; cbn; intros H; inversion H.
Qed.

Lemma port_out_of_range_rejected_witness :
  handler Buffer_from
    (Body (Value "192.168.1.100") (Value 70000)
          (Value (DArr [ENum 27; ENum 64])))
    (Env None [EvConnect SendOk; EvClose])
  = (Some (Response 400 (failure "Invalid port number (must be 1-65535)")), []).
Proof.
  apply (proj1 port_out_of_range_rejected Buffer_from _ 70000).
  - reflexivity.
  - reflexivity.
  - apply ipRegex_test_spec. reflexivity.
  - reflexivity.
  - discriminate.
  - right. lia.
Defined.

Example negative_port :
  print_handler
    (Body (Value "192.168.1.100") (Value (-1)) (Value (DArr [ENum 27])))
    (Env None [EvConnect SendOk; EvClose])
  = (Some (Response 400 (failure "Invalid port number (must be 1-65535)")), []).
Proof. reflexivity. Qed.

(** C9.  A request that supplies port 0 is not rejected: 0 is falsy, so
    [port || 9100] is 9100 and the request is handled exactly as if it
    carried no port; when its address is accepted and its payload, not
    empty, converts to a buffer, the relay connects to port 9100. *)
Theorem port_zero_defaults :
  (forall (BufferFrom : list elem -> conv)
          (i : field string) (d : field payload) (e : env),
     handler BufferFrom (Body i (Value 0) d) e
     = handler BufferFrom (Body i Undefined d) e) /\
  (forall (a : string) (l : list elem) (buf : list Z) (e : env),
     dotted_quad a -> l <> [] -> Buffer_from l = Buffer buf ->
     validate Buffer_from (Body (Value a) (Value 0) (Value (DArr l)))
     = inr (a, 9100, buf) /\
     exists o,
       snd (print_handler (Body (Value a) (Value 0) (Value (DArr l))) e)
       = OpNew :: OpSetTimeout 10000 :: OpConnect 9100 a :: o).
Proof.
  split; [reflexivity |].
  intros a l buf e Hq Hl Hb.
  assert (V : validate Buffer_from (Body (Value a) (Value 0) (Value (DArr l)))
              = inr (a, 9100, buf)).
  { apply validate_inr. cbn [ip port data elements isArray].
    repeat split; try (cbn; lia); try assumption.
    - now apply truthy_dotted_quad.
    - now apply ipRegex_test_spec.
    - destruct (Buffer_from_returns l buf Hb) as [Hlen _].
      destruct buf; [| discriminate].
      destruct l; [congruence | discriminate Hlen]. }
  split; [exact V |].
  unfold print_handler. rewrite (handler_inr _ _ _ _ _ _ V).
  cbn [snd]. apply relay_open_ops.
Qed.

Lemma port_zero_defaults_witness :
  exists o,
    snd (print_handler
           (Body (Value "192.168.1.100") (Value 0)
                 (Value (DArr [ENum 27; ENum 64])))
           (Env None [EvConnect SendOk; EvClose]))
    = OpNew :: OpSetTimeout 10000 :: OpConnect 9100 "192.168.1.100" :: o.
Proof.
  refine (proj2 (proj2 port_zero_defaults "192.168.1.100"
                   [ENum 27; ENum 64] [27; 64]
                   (Env None [EvConnect SendOk; EvClose]) _ _ _)).
  - apply ipRegex_test_spec. reflexivity.
  - discriminate.
  - reflexivity.
Defined.

(** ** The payload *)

(** C3.  For a request whose payload array fails conversion to a buffer
    with a raised error -- the conversion is reached once the presence,
    address and port checks are passed -- the handler answers 400 with the
    error "Invalid data format: " followed by the message of that error,
    and issues no call on a socket. *)
Theorem conversion_error_rejected
    (BufferFrom : list elem -> conv) (b : body) (msg : string) (e : env) :
  truthy (ip b) = true -> isArray (data b) = true ->
  dotted_quad (ToString (ip b)) ->
  1 <= js_or (port b) 9100 <= 65535 ->
  BufferFrom (elements (data b)) = Throws msg ->
  handler BufferFrom b e
  = (Some (Response 400 (failure ("Invalid data format: " ++ msg))), []).
Proof.
  intros Hip Harr Hq Hr Hc.
  apply handler_inl. rewrite validate_past_address by assumption.
  replace ((js_or (port b) 9100 <? 1) || (js_or (port b) 9100 >? 65535))
    with false; [now rewrite Hc |].
  symmetry. apply orb_false_iff. split; [apply Z.ltb_ge; lia |].
  rewrite Z.gtb_ltb. apply Z.ltb_ge. lia.
Qed.

Lemma conversion_error_rejected_witness :
  exists msg,
    print_handler
      (Body (Value "192.168.1.100") (Value 9100)
            (Value (DArr [ENum 27; EObj ["toString"]])))
      (Env None [EvConnect SendOk; EvClose])
    = (Some (Response 400 (failure ("Invalid data format: " ++ msg))), []).
Proof.
  eexists.
  apply (conversion_error_rejected Buffer_from).
  - reflexivity.
  - reflexivity.
  - apply ipRegex_test_spec. reflexivity.
  - cbn. lia.
  - reflexivity.
Defined.

(** C10.  The conversion of the payload raises nothing for numbers outside
    0-255: each is reduced modulo 256 (300 becomes 44, -1 becomes 255);
    the request is accepted, and the reduced bytes are what is written to
    the socket once it is connected. *)
Theorem payload_reduced_modulo_256 :
  (forall ns : list Z,
     Buffer_from (map ENum ns) = Buffer (map (fun n => n mod 256) ns)) /\
  Buffer_from [ENum 300; ENum (-1)] = Buffer [44; 255] /\
  (forall (a : string) (pt : field Z) (ns : list Z) (post : list event),
     dotted_quad a -> 1 <= js_or pt 9100 <= 65535 -> ns <> [] ->
     validate Buffer_from (Body (Value a) pt (Value (DArr (map ENum ns))))
     = inr (a, js_or pt 9100, map (fun n => n mod 256) ns) /\
     In (OpWrite (map (fun n => n mod 256) ns))
        (snd (print_handler
                (Body (Value a) pt (Value (DArr (map ENum ns))))
                (Env None (EvConnect SendOk :: post))))).
Proof.
  assert (B : forall ns : list Z,
            Buffer_from (map ENum ns) = Buffer (map (fun n => n mod 256) ns)).
  { exact Buffer_from_nums. }
  split; [exact B |]. split; [reflexivity |].
  intros a pt ns post Hq Hr Hne.
  assert (V : validate Buffer_from
                (Body (Value a) pt (Value (DArr (map ENum ns))))
              = inr (a, js_or pt 9100, map (fun n => n mod 256) ns)).
  { apply validate_inr. cbn.
    repeat split; try lia.
    - now apply truthy_dotted_quad.
    - now apply ipRegex_test_spec.
    - apply B.
    - destruct ns; [congruence | discriminate]. }
  split; [exact V |].
  unfold print_handler. rewrite (handler_inr _ _ _ _ _ _ V). cbn [snd].
  destruct (relay_connect_ops a (js_or pt 9100)
              (map (fun n => n mod 256) ns) post) as [o E].
  rewrite E. cbn. tauto.
Qed.

Lemma payload_reduced_modulo_256_witness :
  In (OpWrite (map (fun n => n mod 256) [300; -1]))
     (snd (print_handler
             (Body (Value "192.168.1.100") Undefined
                   (Value (DArr (map ENum [300; -1]))))
             (Env None (EvConnect SendOk :: [EvClose])))).
Proof.
  refine (proj2 (proj2 (proj2 payload_reduced_modulo_256)
                   "192.168.1.100" Undefined [300; -1] [EvClose] _ _ _)).
  - apply ipRegex_test_spec. reflexivity.
  - cbn. lia.
  - discriminate.
Defined.

(** ** The calls on the socket are a function of the events *)

Ltac flag_cases st :=
  destruct st as [[] [] [] ? ?];
  cbv [on_event on_timeout on_error on_connect on_close
       resolveOnce issue set_connected set_printSuccess issued
       connected printSuccess resolved resolutions ops negb andb] in *.

Lemma on_event_issued (buffer : list Z) (st : attempt) (ev : event) :
  ops (on_event buffer st ev) = (ops st ++ issued buffer ev)%list.
Proof.
  destruct ev as [|m|[|m|m]|]; flag_cases st;
    rewrite ?app_nil_r; reflexivity.
Qed.

Lemma fold_issued (buffer : list Z) (evs : list event) : forall st,
  ops (fold_left (on_event buffer) evs st)
  = (ops st ++ flat_map (issued buffer) evs)%list.
Proof.
  induction evs as [|ev evs IH]; intros st; cbn [fold_left flat_map].
  - now rewrite app_nil_r.
  - now rewrite IH, on_event_issued, <- app_assoc.
Qed.

Lemma relay_ops_exact (host : string) (p : Z) (buffer : list Z) (e : env) :
  ops (relay host p buffer e)
  = ([OpNew; OpSetTimeout 10000; OpConnect p host]
       ++ flat_map (issued buffer) (events e))%list.
Proof. unfold relay. now rewrite fold_issued, open_ops. Qed.

Lemma issued_no_setup (buffer : list Z) (evs : list event) :
  filter is_setup (flat_map (issued buffer) evs) = [].
Proof.
  induction evs as [|ev evs IH]; cbn [flat_map]; [reflexivity |].
  rewrite filter_app, IH, app_nil_r.
  now destruct ev as [|m|[|m|m]|].
Qed.

Lemma handler_ops BufferFrom (b : body) (e : env) host p buf :
  validate BufferFrom b = inr (host, p, buf) ->
  snd (handler BufferFrom b e)
  = ([OpNew; OpSetTimeout 10000; OpConnect p host]
       ++ flat_map (issued buf) (events e))%list.
Proof.
  intros V. rewrite (handler_inr _ _ _ _ _ _ V). cbn [snd].
  apply relay_ops_exact.
Qed.

Lemma handler_ops_cases BufferFrom (b : body) (e : env) :
  (exists resp, validate BufferFrom b = inl resp /\
                handler BufferFrom b e = (Some resp, [])) \/
  (exists host p buf,
     validate BufferFrom b = inr (host, p, buf) /\
     snd (handler BufferFrom b e)
     = ([OpNew; OpSetTimeout 10000; OpConnect p host]
          ++ flat_map (issued buf) (events e))%list).
Proof.
  destruct (validate BufferFrom b) as [resp|[[host p] buf]] eqn:V.
  - left. exists resp. split; [reflexivity | now apply handler_inl].
  - right. exists host, p, buf. split; [reflexivity | now apply handler_ops].
Qed.

(** X1.  A request that passes validation has exactly one socket created
    for it, given its timeout once, and connected once, to the validated
    port and address: whatever events fire, no second socket and no second
    connection attempt is made. *)
Theorem one_socket_one_connect
    (BufferFrom : list elem -> conv) (b : body) (e : env)
    (host : string) (p : Z) (buf : list Z) :
  validate BufferFrom b = inr (host, p, buf) ->
  filter is_setup (snd (handler BufferFrom b e))
  = [OpNew; OpSetTimeout 10000; OpConnect p host].
Proof.
  intros V. rewrite (handler_ops _ _ _ _ _ _ V).
  rewrite filter_app, issued_no_setup. reflexivity.
Qed.

Lemma one_socket_one_connect_witness :
  filter is_setup
    (snd (handler Buffer_from
            (Body (Value "10.0.0.5") Undefined (Value (DArr [ENum 27])))
            (Env None [EvError "ECONNRESET"; EvConnect SendOk; EvClose])))
  = [OpNew; OpSetTimeout 10000; OpConnect 9100 "10.0.0.5"].
Proof.
  apply (one_socket_one_connect Buffer_from _ _ "10.0.0.5" 9100 [27]).
  reflexivity.
Defined.

(** X2.  The handler connects only to what validation let through: the
    host of a connect call is the address of the request and is a dotted
    quad, its port is the supplied port (9100 when absent, null or 0) and
    lies within 1..65535. *)
Theorem connect_target_validated
    (BufferFrom : list elem -> conv) (b : body) (e : env)
    (host : string) (p : Z) :
  In (OpConnect p host) (snd (handler BufferFrom b e)) ->
  host = ToString (ip b) /\ dotted_quad host /\
  p = js_or (port b) 9100 /\ 1 <= p <= 65535.
Proof.
  intros Hin.
  destruct (handler_ops_cases BufferFrom b e)
    as [(resp & _ & E) | (h & q & buf & V & E)].
  - rewrite E in Hin. destruct Hin.
  - rewrite E in Hin. apply in_app_or in Hin as [Hf | Hf].
    2:{ apply in_flat_map in Hf as (ev & _ & Hev).
        destruct ev as [|m|[|m|m]|]; cbn in Hev; intuition discriminate. }
    cbn in Hf. destruct Hf as [Hf|[Hf|[Hf|[]]]]; try discriminate.
    injection Hf as <- <-.
    apply validate_inr in V.
    destruct V as (_ & _ & _ & Hre & Hp & Hr & _ & _ & Hh).
    subst h. repeat split; try assumption; try lia.
    now apply ipRegex_test_spec.
Qed.

Lemma connect_target_validated_witness :
  "999.999.999.999" = ToString (Value "999.999.999.999") /\
  dotted_quad "999.999.999.999" /\
  9100 = js_or (Value 0) 9100 /\ 1 <= 9100 <= 65535.
Proof.
  apply (connect_target_validated Buffer_from
           (Body (Value "999.999.999.999") (Value 0) (Value (DArr [ENum 27])))
           (Env None [EvTimeout])).
  vm_compute. right. right. left. reflexivity.
Defined.

(** X3.  Whatever is written to a socket is the buffer the payload was
    converted to, it is not empty, and it is written only in answer to a
    ['connect'] event. *)
Theorem writes_only_the_buffer
    (BufferFrom : list elem -> conv) (b : body) (e : env) (x : list Z) :
  In (OpWrite x) (snd (handler BufferFrom b e)) ->
  BufferFrom (elements (data b)) = Buffer x /\ x <> [] /\
  existsb is_connect (events e) = true.
Proof.
  intros Hin.
  destruct (handler_ops_cases BufferFrom b e)
    as [(resp & _ & E) | (h & q & buf & V & E)].
  - rewrite E in Hin. destruct Hin.
  - rewrite E in Hin. apply in_app_or in Hin as [Hf | Hf].
    { cbn in Hf. intuition discriminate. }
    apply in_flat_map in Hf as (ev & Hev & Hop).
    apply validate_inr in V.
    destruct V as (_ & _ & _ & _ & _ & _ & Hbuf & Hne & _).
    assert (x = buf /\ is_connect ev = true) as [-> Hc].
    { destruct ev as [|m|[|m|m]|]; cbn in Hop;
        intuition (try discriminate; try congruence). }
    repeat split; try assumption.
    apply existsb_exists. now exists ev.
Qed.

Lemma writes_only_the_buffer_witness :
  Buffer_from (elements (Value (DArr [ENum 300; ENum 65]))) = Buffer [44; 65] /\
  [44; 65] <> [] /\
  existsb is_connect [EvConnect SendOk; EvClose] = true.
Proof.
  apply (writes_only_the_buffer Buffer_from
           (Body (Value "10.0.0.5") (Value 9100)
                 (Value (DArr [ENum 300; ENum 65])))
           (Env None [EvConnect SendOk; EvClose])).
  vm_compute. right. right. right. left. reflexivity.
Defined.

(** X4.  The socket is destroyed by the handler exactly when a timeout
    fires or a write (or the end of output) throws; an ['error'] or a
    ['close'] event never makes the handler destroy it. *)
Theorem destroyed_iff_timeout_or_failed_send
    (host : string) (p : Z) (buffer : list Z) (e : env) :
  In OpDestroy (ops (relay host p buffer e)) <->
  existsb destroys (events e) = true.
Proof.
  rewrite relay_ops_exact, existsb_exists. split.
  - intros Hin. apply in_app_or in Hin as [Hf | Hf].
    { cbn in Hf. intuition discriminate. }
    apply in_flat_map in Hf as (ev & Hev & Hop).
    exists ev. split; [assumption |].
    destruct ev as [|m|[|m|m]|]; cbn in Hop; try reflexivity;
      intuition discriminate.
  - intros (ev & Hev & Hd). apply in_or_app. right.
    apply in_flat_map. exists ev. split; [assumption |].
    destruct ev as [|m|[|m|m]|]; cbn in *; try discriminate; tauto.
Qed.

(** ** Pending attempts *)

Section Pending.

Variable buffer : list Z.

Lemma fold_pending (evs : list event) : forall st,
  existsb teardown evs = false -> resolved st = false ->
  resolved (fold_left (on_event buffer) evs st) = false /\
  resolutions (fold_left (on_event buffer) evs st) = resolutions st.
Proof.
  induction evs as [|ev evs IH]; intros st Hev Hr; cbn [fold_left].
  - now split.
  - cbn [existsb] in Hev. apply orb_false_iff in Hev as [Ht Hevs].
    destruct ev as [|m|[|m|m]|]; try discriminate Ht.
    destruct (IH (on_event buffer st (EvConnect SendOk)) Hevs) as [H1 H2].
    + flag_cases st; first [discriminate Hr | reflexivity].
    + split; [exact H1 |]. rewrite H2. now flag_cases st.
Qed.




(** The state of an attempt in which only successful connections have
    fired. *)
Lemma pending_state (host : string) (p : Z) (pre : list event) :
  existsb teardown pre = false ->
  resolved (after host p buffer None pre) = false /\
  resolutions (after host p buffer None pre) = [] /\
  printSuccess (after host p buffer None pre)
  = connected (after host p buffer None pre).
Proof.
  intros Hev. unfold after, relay. cbn [connectThrows events].
  assert (G : forall evs st,
             existsb teardown evs = false ->
             printSuccess st = connected st ->
             printSuccess (fold_left (on_event buffer) evs st)
             = connected (fold_left (on_event buffer) evs st)).
  { induction evs as [|ev evs IH]; intros st Ht Hst; cbn [fold_left];
      [assumption |].
    cbn [existsb] in Ht. apply orb_false_iff in Ht as [Ht Hevs].
    destruct ev as [|m|[|m|m]|]; try discriminate Ht.
    apply IH; [assumption |]. now flag_cases st. }
  destruct (fold_pending pre (open host p None) Hev eq_refl) as [H1 H2].
  repeat split; [exact H1 | exact H2 |].
  now apply G.
Qed.

End Pending.

Lemma after_snoc host p buffer throws (evs : list event) (ev : event) :
  after host p buffer throws (evs ++ [ev])
  = on_event buffer (after host p buffer throws evs) ev.
Proof. now rewrite after_app. Qed.

(** The outcome is decided by the first event that is not a successful
    connection. *)
Lemma decisive_event host p buffer (pre post : list event) (ev : event) :
  existsb teardown pre = false -> teardown ev = true ->
  resolutions (after host p buffer None (pre ++ ev :: post))
  = resolutions (on_event buffer (after host p buffer None pre) ev).
Proof.
  intros Hpre Hev. rewrite after_app. cbn [fold_left].
  apply fold_resolved. apply teardown_resolves.
  - apply after_inv.
  - intros ->. discriminate Hev.
Qed.

(** ** Responses *)


(** X6.  When the first event that is not a successful connection is an
    ['error'], the response is 500 and its error is the message of that
    error, or "Connection failed" when the message is empty; the handler
    of the error issues no call on the socket. *)
Theorem error_answers_500_with_message
    (BufferFrom : list elem -> conv) (b : body)
    (host : string) (p : Z) (buf : list Z)
    (pre post : list event) (m : string) :
  validate BufferFrom b = inr (host, p, buf) ->
  existsb teardown pre = false ->
  fst (handler BufferFrom b (Env None (pre ++ EvError m :: post)))
  = Some (Response 500
            (failure (if String.eqb m "" then "Connection failed" else m))) /\
  ops (after host p buf None (pre ++ [EvError m]))
  = ops (after host p buf None pre).
Proof.
  intros V Hpre. rewrite (handler_inr _ _ _ _ _ _ V). cbn [fst].
  destruct (pending_state buf host p pre Hpre) as (Hr & Hs & _).
  unfold settled. fold (after host p buf None (pre ++ EvError m :: post)).
  rewrite decisive_event by (assumption || reflexivity).
  rewrite after_snoc.
  destruct (after host p buf None pre) as [c w r rs o].
  cbn in Hr, Hs. subst r rs.
  cbn. unfold truthy, truthy_string.
  split; [now destruct (String.eqb m "") | reflexivity].
Qed.

Lemma error_answers_500_with_message_witness :
  fst (handler Buffer_from
         (Body (Value "10.0.0.5") Undefined (Value (DArr [ENum 27])))
         (Env None ([] ++ EvError "ECONNREFUSED" :: [EvClose])))
  = Some (Response 500 (failure "ECONNREFUSED")).
Proof.
  refine (proj1 (error_answers_500_with_message Buffer_from
                   (Body (Value "10.0.0.5") Undefined (Value (DArr [ENum 27])))
                   "10.0.0.5" 9100 [27] [] [EvClose] "ECONNREFUSED" _ _));
    reflexivity.
Defined.

(** X7.  When the first event that is not a successful connection is a
    connection whose write (or end of output) throws, the response is 500
    with the error "Failed to send data: " followed by the message thrown,
    and the socket is destroyed; no later close turns it into a success. *)
Theorem failed_send_answers_500
    (BufferFrom : list elem -> conv) (b : body)
    (host : string) (p : Z) (buf : list Z)
    (pre post : list event) (s : send) (m : string) :
  validate BufferFrom b = inr (host, p, buf) ->
  existsb teardown pre = false ->
  s = WriteThrows m \/ s = EndThrows m ->
  fst (handler BufferFrom b (Env None (pre ++ EvConnect s :: post)))
  = Some (Response 500 (failure ("Failed to send data: " ++ m))) /\
  In OpDestroy (snd (handler BufferFrom b (Env None (pre ++ EvConnect s :: post)))).
Proof.
  intros V Hpre Hs. rewrite (handler_inr _ _ _ _ _ _ V). cbn [fst snd].
  split.
  - destruct (pending_state buf host p pre Hpre) as (Hr & Hrs & _).
    unfold settled. fold (after host p buf None (pre ++ EvConnect s :: post)).
    rewrite decisive_event; [| assumption | destruct Hs; subst s; reflexivity].
    destruct (after host p buf None pre) as [c w r rs o].
    cbn in Hr, Hrs. subst r rs.
    destruct Hs; subst s; reflexivity.
  - rewrite relay_ops_exact. cbn [events]. apply in_or_app. right.
    apply in_flat_map. exists (EvConnect s). split; [apply in_elt |].
    destruct Hs; subst s; cbn; tauto.
Qed.

Lemma failed_send_answers_500_witness :
  fst (handler Buffer_from
         (Body (Value "10.0.0.5") Undefined (Value (DArr [ENum 27])))
         (Env None ([] ++ EvConnect (WriteThrows "EPIPE") :: [EvClose])))
  = Some (Response 500 (failure ("Failed to send data: " ++ "EPIPE"))).
Proof.
  refine (proj1 (failed_send_answers_500 Buffer_from
                   (Body (Value "10.0.0.5") Undefined (Value (DArr [ENum 27])))
                   "10.0.0.5" 9100 [27] [] [EvClose]
                   (WriteThrows "EPIPE") "EPIPE" _ _ _)).
  - reflexivity.
  - reflexivity.
  - left. reflexivity.
Defined.

(** X8.  When [socket.connect] throws, the response is 500 with the error
    "Failed to connect: " followed by the message thrown, whatever events
    fire afterwards. *)
Theorem connect_throw_answers_500
    (BufferFrom : list elem -> conv) (b : body)
    (host : string) (p : Z) (buf : list Z) (m : string) (evs : list event) :
  validate BufferFrom b = inr (host, p, buf) ->
  fst (handler BufferFrom b (Env (Some m) evs))
  = Some (Response 500 (failure ("Failed to connect: " ++ m))).
Proof.
  intros V. rewrite (handler_inr _ _ _ _ _ _ V). cbn [fst].
  unfold settled, relay. cbn [connectThrows events].
  assert (Ht : resolved (open host p (Some m)) = true) by reflexivity.
  destruct (fold_resolved buf evs _ Ht) as [_ Hs]. now rewrite Hs.
Qed.

Lemma connect_throw_answers_500_witness :
  fst (handler Buffer_from
         (Body (Value "10.0.0.5") Undefined (Value (DArr [ENum 27])))
         (Env (Some "EINVAL") [EvConnect SendOk; EvClose]))
  = Some (Response 500 (failure ("Failed to connect: " ++ "EINVAL"))).
Proof.
  apply (connect_throw_answers_500 Buffer_from _ "10.0.0.5" 9100 [27]).
  reflexivity.
Defined.

(** ** What a success response implies *)

Lemma success_invariant host p buffer throws (evs : list event) :
  (printSuccess (after host p buffer throws evs) = true ->
     In (EvConnect SendOk) evs) /\
  (forall r, In r (resolutions (after host p buffer throws evs)) ->
     success r = true ->
     r = print_success /\ In EvClose evs /\ In (EvConnect SendOk) evs).
Proof.
  induction evs as [|ev evs IH] using rev_ind.
  - destruct throws; cbn; split; try discriminate;
      intros r Hr Hs; try destruct Hr as [<- | []]; try discriminate;
      destruct Hr.
  - rewrite after_snoc.
    destruct (after host p buffer throws evs) as [c w r rs o].
    cbn [printSuccess resolutions] in IH. destruct IH as [IHp IHr].
    assert (Hold : forall x, In x rs -> success x = true ->
              x = print_success /\ In EvClose (evs ++ [ev]) /\
              In (EvConnect SendOk) (evs ++ [ev])).
    { intros x Hx Hs. destruct (IHr x Hx Hs) as (E & H1 & H2).
      repeat split; [exact E | |]; apply in_or_app; now left. }
    destruct ev as [|m|[|m|m]|]; destruct c, w, r;
      cbv [on_event on_timeout on_error on_connect on_close
           resolveOnce issue set_connected set_printSuccess
           connected printSuccess resolved resolutions ops negb andb];
      (split;
       [ intros Hp; try discriminate Hp;
         first [ apply in_or_app; left; now apply IHp
               | apply in_or_app; right; now left ]
       | intros x Hx Hs;
         try (apply in_app_or in Hx as [Hx | [<- | []]]);
         first [ now apply Hold
               | discriminate Hs
               | (split; [reflexivity |]); split;
                 [ apply in_or_app; right; now left
                 | apply in_or_app; left; now apply IHp ] ] ]).
Qed.

(** X9.  A 200 response is sent only for a job that was handed to the
    socket: the body is the success result, a connection succeeded with the
    whole buffer written and the output ended, and the socket has closed. *)
Theorem success_implies_written_and_closed
    (BufferFrom : list elem -> conv) (b : body) (e : env) (resp : response) :
  fst (handler BufferFrom b e) = Some resp -> status resp = 200 ->
  json resp = print_success /\
  In (EvConnect SendOk) (events e) /\ In EvClose (events e) /\
  exists buf,
    BufferFrom (elements (data b)) = Buffer buf /\
    In (OpWrite buf) (snd (handler BufferFrom b e)) /\
    In OpEnd (snd (handler BufferFrom b e)).
Proof.
  intros Hresp Hst.
  destruct (validate BufferFrom b) as [r400|[[host p] buf]] eqn:V.
  - rewrite (handler_inl _ _ _ _ V) in Hresp. cbn in Hresp.
    injection Hresp as <-. apply validate_inl in V as [V _].
    rewrite V in Hst. discriminate.
  - rewrite (handler_ops _ _ _ _ _ _ V).
    rewrite (handler_inr _ _ _ _ _ _ V) in Hresp. cbn [fst] in Hresp.
    destruct e as [throws evs]. cbn [events].
    unfold settled in Hresp. fold (after host p buf throws evs) in Hresp.
    destruct (resolutions (after host p buf throws evs)) as [|r rs] eqn:Hrs;
      [discriminate |].
    cbn in Hresp. injection Hresp as <-.
    assert (Hs : success r = true).
    { unfold respond in Hst. destruct (success r); [reflexivity |].
      cbn in Hst. discriminate. }
    destruct (success_invariant host p buf throws evs) as [_ Hinv].
    destruct (Hinv r) as (-> & Hclose & Hconn);
      [rewrite Hrs; now left | assumption |].
    apply validate_inr in V.
    destruct V as (_ & _ & _ & _ & _ & _ & Hbuf & _ & _).
    repeat split; try assumption.
    exists buf. split; [assumption |].
    split; apply in_or_app; right; apply in_flat_map;
      exists (EvConnect SendOk); (split; [assumption | cbn; tauto]).
Qed.

Lemma success_implies_written_and_closed_witness :
  json (Response 200 print_success) = print_success /\
  In (EvConnect SendOk) [EvConnect SendOk; EvClose] /\
  In EvClose [EvConnect SendOk; EvClose] /\
  exists buf,
    Buffer_from (elements (Value (DArr [ENum 27; ENum 64]))) = Buffer buf /\
    In (OpWrite buf)
       (snd (handler Buffer_from
               (Body (Value "10.0.0.5") Undefined
                     (Value (DArr [ENum 27; ENum 64])))
               (Env None [EvConnect SendOk; EvClose]))) /\
    In OpEnd
       (snd (handler Buffer_from
               (Body (Value "10.0.0.5") Undefined
                     (Value (DArr [ENum 27; ENum 64])))
               (Env None [EvConnect SendOk; EvClose]))).
Proof.
  apply (success_implies_written_and_closed Buffer_from
           (Body (Value "10.0.0.5") Undefined (Value (DArr [ENum 27; ENum 64])))
           (Env None [EvConnect SendOk; EvClose])
           (Response 200 print_success));
    reflexivity.
Defined.

Lemma result_shapes host p buffer throws (evs : list event) :
  forall r, In r (resolutions (after host p buffer throws evs)) ->
    r = print_success \/ exists m, r = failure m.
Proof.
  induction evs as [|ev evs IH] using rev_ind.
  - destruct throws; cbn; intros r Hr; try destruct Hr as [<- | []];
      try destruct Hr. right. now eexists.
  - rewrite after_snoc.
    destruct (after host p buffer throws evs) as [c w r rs o].
    cbn [resolutions] in IH.
    destruct ev as [|m|[|m|m]|]; destruct c, w, r;
      cbv [on_event on_timeout on_error on_connect on_close
           resolveOnce issue set_connected set_printSuccess
           connected printSuccess resolved resolutions ops negb andb];
      intros x Hx;
      try (apply in_app_or in Hx as [Hx | [<- | []]]);
      first [ now apply IH | now left | right; now eexists ].
Qed.

(** X10.  Every response of the handler is of one of three kinds: a 400
    with [success: false] and no call on any socket; a 200 whose body is
    the success result; or a 500 whose body is a failure with an error
    message.  The last two are sent only after a socket was created. *)
Theorem response_kinds
    (BufferFrom : list elem -> conv) (b : body) (e : env) (resp : response) :
  fst (handler BufferFrom b e) = Some resp ->
  (status resp = 400 /\ success (json resp) = false /\
   snd (handler BufferFrom b e) = []) \/
  (status resp = 200 /\ json resp = print_success /\
   In OpNew (snd (handler BufferFrom b e))) \/
  (status resp = 500 /\ (exists m, json resp = failure m) /\
   In OpNew (snd (handler BufferFrom b e))).
Proof.
  intros Hresp.
  destruct (validate BufferFrom b) as [r400|[[host p] buf]] eqn:V.
  - left. rewrite (handler_inl _ _ _ _ V) in *. cbn in Hresp.
    injection Hresp as <-. apply validate_inl in V as [V1 V2].
    now repeat split.
  - right. rewrite (handler_ops _ _ _ _ _ _ V).
    rewrite (handler_inr _ _ _ _ _ _ V) in Hresp. cbn [fst] in Hresp.
    destruct e as [throws evs]. unfold settled in Hresp.
    fold (after host p buf throws evs) in Hresp.
    destruct (resolutions (after host p buf throws evs)) as [|r rs] eqn:Hrs;
      [discriminate |].
    cbn in Hresp. injection Hresp as <-.
    destruct (result_shapes host p buf throws evs r) as [-> | [m ->]];
      [rewrite Hrs; now left | left | right];
      cbn; (repeat split; try tauto). now exists m.
Qed.

Lemma response_kinds_witness :
  (status (Response 500 (failure "ECONNREFUSED")) = 400 /\
   success (json (Response 500 (failure "ECONNREFUSED"))) = false /\
   snd (handler Buffer_from
          (Body (Value "10.0.0.5") Undefined (Value (DArr [ENum 27])))
          (Env None [EvError "ECONNREFUSED"])) = []) \/
  (status (Response 500 (failure "ECONNREFUSED")) = 200 /\
   json (Response 500 (failure "ECONNREFUSED")) = print_success /\
   In OpNew (snd (handler Buffer_from
          (Body (Value "10.0.0.5") Undefined (Value (DArr [ENum 27])))
          (Env None [EvError "ECONNREFUSED"])))) \/
  (status (Response 500 (failure "ECONNREFUSED")) = 500 /\
   (exists m, json (Response 500 (failure "ECONNREFUSED")) = failure m) /\
   In OpNew (snd (handler Buffer_from
          (Body (Value "10.0.0.5") Undefined (Value (DArr [ENum 27])))
          (Env None [EvError "ECONNREFUSED"])))).
Proof.
  apply (response_kinds Buffer_from
           (Body (Value "10.0.0.5") Undefined (Value (DArr [ENum 27])))
           (Env None [EvError "ECONNREFUSED"])).
  reflexivity.
Defined.

(** X11.  A 500 response does not mean that nothing was sent: when a
    timeout or an error follows a successful connection before the socket
    closes, the response is a 500 failure although the whole buffer has
    been written and the output ended. *)
Theorem failure_after_write
    (BufferFrom : list elem -> conv) (b : body)
    (host : string) (p : Z) (buf : list Z) (ev : event) (post : list event) :
  validate BufferFrom b = inr (host, p, buf) ->
  ev = EvTimeout \/ (exists m, ev = EvError m) ->
  (exists msg,
     fst (handler BufferFrom b (Env None (EvConnect SendOk :: ev :: post)))
     = Some (Response 500 (failure msg))) /\
  In (OpWrite buf)
     (snd (handler BufferFrom b (Env None (EvConnect SendOk :: ev :: post)))) /\
  In OpEnd
     (snd (handler BufferFrom b (Env None (EvConnect SendOk :: ev :: post)))).
Proof.
  intros V Hev.
  rewrite (handler_ops _ _ _ _ _ _ V).
  rewrite (handler_inr _ _ _ _ _ _ V). cbn [fst].
  split; [| cbn; tauto].
  unfold settled.
  change (relay host p buf (Env None (EvConnect SendOk :: ev :: post)))
    with (after host p buf None ([EvConnect SendOk] ++ ev :: post)).
  rewrite decisive_event;
    [| reflexivity | destruct Hev as [-> | [m ->]]; reflexivity].
  destruct Hev as [-> | [m ->]]; cbn; eexists; reflexivity.
Qed.

Lemma failure_after_write_witness :
  In (OpWrite [27])
     (snd (handler Buffer_from
             (Body (Value "10.0.0.5") Undefined (Value (DArr [ENum 27])))
             (Env None (EvConnect SendOk :: EvTimeout :: [EvClose])))).
Proof.
  refine (proj1 (proj2 (failure_after_write Buffer_from
                   (Body (Value "10.0.0.5") Undefined (Value (DArr [ENum 27])))
                   "10.0.0.5" 9100 [27] EvTimeout [EvClose] _ _))).
  - reflexivity.
  - left. reflexivity.
Defined.

(** ** The outcome does not depend on the payload *)

Lemma on_event_flags (b1 b2 : list Z) (st1 st2 : attempt) (ev : event) :
  flags st1 = flags st2 ->
  flags (on_event b1 st1 ev) = flags (on_event b2 st2 ev).
Proof.
  destruct st1 as [c1 w1 r1 rs1 o1], st2 as [c2 w2 r2 rs2 o2].
  unfold flags. cbn. intros H. injection H as -> -> -> ->.
  destruct ev as [|m|[|m|m]|]; destruct c2, w2, r2; reflexivity.
Qed.

Lemma fold_flags (b1 b2 : list Z) (evs : list event) : forall st1 st2,
  flags st1 = flags st2 ->
  flags (fold_left (on_event b1) evs st1)
  = flags (fold_left (on_event b2) evs st2).
Proof.
  induction evs as [|ev evs IH]; intros st1 st2 H; cbn [fold_left];
    [assumption |].
  apply IH. now apply on_event_flags.
Qed.

(** X12.  The payload is opaque to the relay: the outcome of an attempt
    is decided by the events alone, not by the address, the port or the
    bytes; two requests that pass validation get the same response when
    the same events fire. *)
Theorem outcome_independent_of_request :
  (forall host1 p1 buf1 host2 p2 buf2 e,
     resolutions (relay host1 p1 buf1 e) = resolutions (relay host2 p2 buf2 e)) /\
  (forall (BufferFrom : list elem -> conv) (b1 b2 : body) (e : env),
     (exists x, validate BufferFrom b1 = inr x) ->
     (exists x, validate BufferFrom b2 = inr x) ->
     fst (handler BufferFrom b1 e) = fst (handler BufferFrom b2 e)).
Proof.
  assert (R : forall host1 p1 buf1 host2 p2 buf2 e,
             resolutions (relay host1 p1 buf1 e)
             = resolutions (relay host2 p2 buf2 e)).
  { intros host1 p1 buf1 host2 p2 buf2 e.
    assert (F : flags (relay host1 p1 buf1 e) = flags (relay host2 p2 buf2 e)).
    { unfold relay. apply fold_flags. now destruct (connectThrows e). }
    unfold flags in F. now injection F. }
  split; [exact R |].
  intros BufferFrom b1 b2 e [[[h1 q1] x1] V1] [[[h2 q2] x2] V2].
  rewrite (handler_inr _ _ _ _ _ _ V1), (handler_inr _ _ _ _ _ _ V2).
  cbn [fst]. unfold settled. now rewrite (R h1 q1 x1 h2 q2 x2 e).
Qed.

Lemma outcome_independent_of_request_witness :
  fst (handler Buffer_from
         (Body (Value "10.0.0.5") Undefined (Value (DArr [ENum 27])))
         (Env None [EvConnect SendOk; EvClose]))
  = fst (handler Buffer_from
           (Body (Value "192.168.1.100") (Value 515) (Value (DArr [ENum 300])))
           (Env None [EvConnect SendOk; EvClose])).
Proof.
  apply (proj2 outcome_independent_of_request Buffer_from).
  - eexists. reflexivity.
  - eexists. reflexivity.
Defined.

(** ** The conversion of the payload *)

(** X13.  The conversion of an array throws exactly when one of its
    elements is an object with an own "toString" key; when it returns, the
    buffer has one byte per element, each within 0..255 -- numbers out of
    range, booleans, nulls and other objects are coerced, not refused. *)
Theorem buffer_one_byte_per_element (l : list elem) :
  ((exists msg, Buffer_from l = Throws msg) <-> existsb own_toString l = true) /\
  (forall bytes,
     Buffer_from l = Buffer bytes ->
     List.length bytes = List.length l /\
     Forall (fun x => 0 <= x <= 255) bytes).
Proof.
  split; [apply Buffer_from_throws | apply Buffer_from_returns].
Qed.

Lemma buffer_one_byte_per_element_witness :
  List.length [44; 1; 0; 0] = List.length [ENum 300; EBool true; ENull; EObj ["valueOf"]] /\
  Forall (fun x => 0 <= x <= 255) [44; 1; 0; 0].
Proof.
  apply (proj2 (buffer_one_byte_per_element
                  [ENum 300; EBool true; ENull; EObj ["valueOf"]])).
  reflexivity.
Defined.

(** X14.  Payloads that agree modulo 256, element by element, cannot be
    told apart: the response and the calls on the socket are the same. *)
Theorem congruent_payloads_indistinguishable
    (i : field string) (pt : field Z) (ns ms : list Z) (e : env) :
  map (fun n => n mod 256) ns = map (fun n => n mod 256) ms ->
  print_handler (Body i pt (Value (DArr (map ENum ns)))) e
  = print_handler (Body i pt (Value (DArr (map ENum ms)))) e.
Proof.
  intros H.
  assert (B : Buffer_from (map ENum ns) = Buffer_from (map ENum ms)).
  { rewrite !Buffer_from_nums. now rewrite H. }
  unfold print_handler, handler, validate. cbn [ip port data elements isArray].
  now rewrite B.
Qed.

Lemma congruent_payloads_indistinguishable_witness :
  print_handler
    (Body (Value "10.0.0.5") Undefined (Value (DArr (map ENum [300; -1]))))
    (Env None [EvConnect SendOk; EvClose])
  = print_handler
      (Body (Value "10.0.0.5") Undefined (Value (DArr (map ENum [44; 255]))))
      (Env None [EvConnect SendOk; EvClose]).
Proof.
  apply (congruent_payloads_indistinguishable
           (Value "10.0.0.5") Undefined [300; -1] [44; 255]).
  reflexivity.
Defined.

(** X15.  Converting is idempotent: the bytes of a buffer, sent again as a
    payload, convert to the same buffer. *)
Theorem conversion_idempotent (l : list elem) (bytes : list Z) :
  Buffer_from l = Buffer bytes ->
  Buffer_from (map ENum bytes) = Buffer bytes.
Proof.
  intros H. apply Buffer_from_bytes.
  now apply (Buffer_from_returns l).
Qed.

Lemma conversion_idempotent_witness :
  Buffer_from (map ENum [44; 1; 0]) = Buffer [44; 1; 0].
Proof.
  apply (conversion_idempotent [ENum 300; EBool true; EObj []]).
  reflexivity.
Defined.

(** X16.  The error "Invalid data format: ..." is the answer exactly when
    the address and the port are accepted and the payload array holds an
    object with an own "toString" key; no number, boolean, null or other
    object in the payload ever causes it. *)
Theorem invalid_data_format_iff (b : body) :
  (exists msg,
     validate Buffer_from b
     = inl (Response 400 (failure ("Invalid data format: " ++ msg))))
  <-> truthy (ip b) = true /\ dotted_quad (ToString (ip b)) /\
      1 <= js_or (port b) 9100 <= 65535 /\
      isArray (data b) = true /\
      existsb own_toString (elements (data b)) = true.
Proof.
  split.
  - intros [msg V]. unfold validate in V.
    destruct (truthy (ip b)); [| cbn in V; inversion V].
    destruct (isArray (data b)) eqn:Harr;
      [| rewrite !orb_true_r in V; inversion V].
    rewrite (isArray_truthy _ Harr) in V. cbn [negb orb] in V.
    destruct (test ipRegex (ToString (ip b))) eqn:Hre;
      [| cbn in V; inversion V].
    cbn [negb] in V.
    destruct (Z.ltb_spec (js_or (port b) 9100) 1);
      [cbn in V; inversion V |].
    destruct (Z.gtb_spec (js_or (port b) 9100) 65535);
      [cbn in V; inversion V |].
    cbn [orb] in V.
    repeat split; try lia; [now apply ipRegex_test_spec |].
    apply Buffer_from_throws.
    destruct (Buffer_from (elements (data b))) as [bytes|m];
      [| now exists m].
    destruct (Z.of_nat (List.length bytes) =? 0); cbn in V; inversion V.
  - intros (Hip & Hq & Hr & Harr & Hex).
    apply Buffer_from_throws in Hex as [msg Hm]. exists msg.
    rewrite validate_past_address by assumption.
    replace ((js_or (port b) 9100 <? 1) || (js_or (port b) 9100 >? 65535))
      with false; [now rewrite Hm |].
    symmetry. apply orb_false_iff. split; [apply Z.ltb_ge; lia |].
    rewrite Z.gtb_ltb. apply Z.ltb_ge. lia.
Qed.

(** ** The presence check *)


(** X18.  On Node, "Print data is empty" is the answer exactly when the
    address and the port are accepted and the payload is the empty
    array. *)
Theorem empty_payload_iff (b : body) :
  validate Buffer_from b
  = inl (Response 400 (failure "Print data is empty"))
  <-> truthy (ip b) = true /\ dotted_quad (ToString (ip b)) /\
      1 <= js_or (port b) 9100 <= 65535 /\ data b = Value (DArr []).
Proof.
  split.
  - intros V. unfold validate in V.
    destruct (truthy (ip b)); [| cbn in V; inversion V].
    destruct (isArray (data b)) eqn:Harr;
      [| rewrite !orb_true_r in V; inversion V].
    rewrite (isArray_truthy _ Harr) in V. cbn [negb orb] in V.
    destruct (test ipRegex (ToString (ip b))) eqn:Hre;
      [| cbn in V; inversion V].
    cbn [negb] in V.
    destruct (Z.ltb_spec (js_or (port b) 9100) 1);
      [cbn in V; inversion V |].
    destruct (Z.gtb_spec (js_or (port b) 9100) 65535);
      [cbn in V; inversion V |].
    cbn [orb] in V.
    destruct (data b) as [| |[s|n|x| |l]]; try discriminate Harr.
    destruct l as [|x l].
    + repeat split; try lia. now apply ipRegex_test_spec.
    + exfalso. cbn [data elements] in V.
      destruct (Buffer_from (x :: l)) as [bytes|m] eqn:B.
      * destruct (Buffer_from_returns _ _ B) as [Hlen _].
        destruct bytes; [discriminate Hlen | cbn in V; inversion V].
      * unfold failure in V. cbn in V. inversion V.
  - intros (Hip & Hq & Hr & Hd).
    rewrite validate_past_address; try assumption.
    + replace ((js_or (port b) 9100 <? 1) || (js_or (port b) 9100 >? 65535))
        with false; [now rewrite Hd |].
      symmetry. apply orb_false_iff. split; [apply Z.ltb_ge; lia |].
      rewrite Z.gtb_ltb. apply Z.ltb_ge. lia.
    + now rewrite Hd.
Qed.

(** ** More on the address pattern *)

Lemma string_length_app (a b : string) :
  String.length (a ++ b) = (String.length a + String.length b)%nat.
Proof. induction a as [|c a IH]; cbn; [reflexivity | now rewrite IH]. Qed.

Lemma list_ascii_app (a b : string) :
  list_ascii_of_string (a ++ b)
  = (list_ascii_of_string a ++ list_ascii_of_string b)%list.
Proof. induction a as [|c a IH]; cbn; [reflexivity | now rewrite IH]. Qed.

Lemma digit_not_dot (c : ascii) : decimal_digit c -> is_dot c = false.
Proof.
  unfold decimal_digit. cbn.
  intros H; repeat (destruct H as [<- | H]; [reflexivity |]). destruct H.
Qed.

Lemma group_chars (g : string) :
  digit_group g ->
  Forall (fun c => is_digit c = true \/ c = "."%char) (list_ascii_of_string g) /\
  filter is_dot (list_ascii_of_string g) = [].
Proof.
  intros [_ H]. induction H as [|c l Hc _ [IH1 IH2]]; [now split |].
  split.
  - constructor; [left; now apply is_digit_spec | exact IH1].
  - cbn. now rewrite (digit_not_dot c Hc).
Qed.

(** X19.  An address the pattern accepts is 7 to 15 characters long, made
    of digits and dots only, with exactly three dots: no sign, space,
    newline, letter or port suffix gets through. *)
Theorem accepted_address_shape (s : string) :
  test ipRegex s = true ->
  (7 <= String.length s <= 15)%nat /\
  Forall (fun c => is_digit c = true \/ c = "."%char) (list_ascii_of_string s) /\
  List.length (filter is_dot (list_ascii_of_string s)) = 3%nat.
Proof.
  intros H. apply ipRegex_test_spec in H.
  destruct H as (a & b & c & d & Ha & Hb & Hc & Hd & ->).
  destruct (group_chars a Ha) as [Fa Da], (group_chars b Hb) as [Fb Db],
           (group_chars c Hc) as [Fc Dc], (group_chars d Hd) as [Fd Dd].
  destruct Ha as [La _], Hb as [Lb _], Hc as [Lc _], Hd as [Ld _].
  repeat split.
  - rewrite !string_length_app. cbn. lia.
  - rewrite !string_length_app. cbn. lia.
  - rewrite !list_ascii_app. cbn.
    repeat (apply Forall_app; split; [assumption |];
            apply Forall_cons; [now right |]).
    assumption.
  - rewrite !list_ascii_app. cbn.
    rewrite !filter_app. cbn. rewrite !filter_app. cbn.
    rewrite ?filter_app. cbn. rewrite Da, Db, Dc, Dd. reflexivity.
Qed.

Lemma accepted_address_shape_witness :
  (7 <= String.length "999.999.999.999" <= 15)%nat /\
  Forall (fun c => is_digit c = true \/ c = "."%char)
         (list_ascii_of_string "999.999.999.999") /\
  List.length (filter is_dot (list_ascii_of_string "999.999.999.999")) = 3%nat.
Proof. apply (accepted_address_shape "999.999.999.999"). reflexivity. Defined.

Lemma decimal_group (n : nat) : (n < 256)%nat -> digit_group (decimal n).
Proof.
  intros Hn.
  assert (All : forallb (fun k => test (rep (Class is_digit) 1 3) (decimal k))
                  (seq 0 256) = true) by (vm_compute; reflexivity).
  rewrite forallb_forall in All.
  apply group_spec, RegexFacts.test_spec, All, in_seq. lia.
Qed.

(** X20.  No IPv4 address is rejected for its format: every address
    written in dotted-decimal notation, with four numbers below 256, is
    accepted by the pattern. *)
Theorem every_ipv4_address_accepted (a b c d : nat) :
  (a < 256)%nat -> (b < 256)%nat -> (c < 256)%nat -> (d < 256)%nat ->
  test ipRegex (ipv4_text a b c d) = true.
Proof.
  intros Ha Hb Hc Hd. apply ipRegex_test_spec.
  exists (decimal a), (decimal b), (decimal c), (decimal d).
  repeat split; try (now apply decimal_group).
  all: now apply decimal_group.
Qed.

Lemma every_ipv4_address_accepted_witness :
  test ipRegex (ipv4_text 192 168 1 100) = true.
Proof. apply (every_ipv4_address_accepted 192 168 1 100); lia. Defined.

Example ipv4_text_example : ipv4_text 192 168 1 100 = "192.168.1.100".
Proof. reflexivity. Qed.

(** ** Allowed origins *)

Lemma split_comma_nonempty (s : string) : split_comma s <> [].
Proof.
  destruct s as [|c s]; cbn; [discriminate |].
  destruct (is_comma c); [discriminate |].
  destruct (split_comma s); discriminate.
Qed.

Lemma split_comma_concat (s : string) : String.concat "," (split_comma s) = s.
Proof.
  induction s as [|c s IH]; [reflexivity |].
  cbn [split_comma]. pose proof (split_comma_nonempty s) as Hne.
  destruct (is_comma c) eqn:Hc.
  - apply Ascii.eqb_eq in Hc. subst c.
    destruct (split_comma s) as [|x xs]; [contradiction |].
    change (String.concat "," ("" :: x :: xs))
      with ("" ++ "," ++ String.concat "," (x :: xs)).
    now rewrite IH.
  - destruct (split_comma s) as [|x xs]; [contradiction |].
    destruct xs as [|y ys]; cbn in *; now rewrite <- IH.
Qed.

Lemma split_comma_no_comma (s : string) :
  Forall (fun o => filter is_comma (list_ascii_of_string o) = [])
         (split_comma s).
Proof.
  induction s as [|c s IH]; cbn [split_comma]; [now repeat constructor |].
  destruct (is_comma c) eqn:Hc; [now constructor |].
  destruct (split_comma s) as [|x xs]; [now repeat constructor; cbn; rewrite Hc |].
  inversion IH as [|? ? Hx Hxs]; subst.
  constructor; [| assumption]. cbn. now rewrite Hc.
Qed.

Lemma split_comma_length (s : string) :
  List.length (split_comma s)
  = S (List.length (filter is_comma (list_ascii_of_string s))).
Proof.
  induction s as [|c s IH]; cbn [split_comma]; [reflexivity |].
  cbn [list_ascii_of_string filter].
  destruct (is_comma c); cbn [List.length]; [now rewrite IH |].
  pose proof (split_comma_nonempty s) as Hne.
  destruct (split_comma s) as [|x xs]; [contradiction |].
  cbn [List.length] in *. exact IH.
Qed.

(** X21.  With [ALLOWED_ORIGINS] unset or empty every origin is allowed;
    otherwise the allowed origins are the pieces of the variable between
    its commas, one more than it has commas, taken as they are (nothing
    trimmed, nothing dropped): joined by commas they give the variable
    back, and none contains a comma. *)
Theorem allowed_origins_split :
  allowed_origins None = AnyOrigin /\
  allowed_origins (Some "") = AnyOrigin /\
  forall s, s <> "" ->
    allowed_origins (Some s) = OriginList (split_comma s) /\
    split_comma s <> [] /\
    String.concat "," (split_comma s) = s /\
    Forall (fun o => filter is_comma (list_ascii_of_string o) = [])
           (split_comma s) /\
    List.length (split_comma s)
    = S (List.length (filter is_comma (list_ascii_of_string s))).
Proof.
  split; [reflexivity |]. split; [reflexivity |].
  intros s Hs. unfold allowed_origins. rewrite (truthy_nonempty s Hs).
  split; [reflexivity |].
  split; [apply split_comma_nonempty |].
  split; [apply split_comma_concat |].
  split; [apply split_comma_no_comma | apply split_comma_length].
Qed.

Lemma allowed_origins_split_witness :
  allowed_origins (Some "https://pos.example.com, http://localhost:5173")
  = OriginList ["https://pos.example.com"; " http://localhost:5173"].
Proof.
  refine (proj1 (proj2 (proj2 allowed_origins_split)
                   "https://pos.example.com, http://localhost:5173" _)).
  discriminate.
Defined.
